(** * llm-intent-benchmark: the Aggregator (analyze_results.py) and the
    Producer's attempt loop (run_tests.py), embedded as Rocq functions.

    Modelling conventions.
    - A Python number (int or float) is an exact rational, or [Inf] for
      [float('inf')]; binary64 rounding, overflow, NaN and negative
      infinity are outside the model.
    - A [str] is a byte string (UTF-8); byte-wise lexicographic order is
      the code-point order Python uses.
    - A [dict] is an association list in insertion order, which is the
      iteration order of Python dictionaries.
    - Exceptions are values of [exn] threaded through the [result] monad.
    - Library functions (json.loads, float(), str.strip, repr of a number,
      tabulate, the HTTP client) are section variables. *)

From Stdlib Require Import ZArith QArith String Ascii List Bool Lia.
From Stdlib Require Import Sorted Permutation Lqa Qround.
Import ListNotations.

Set Implicit Arguments.
Set Warnings "-register-all".

(** ** Exceptions and the result monad *)

Inductive exn : Type :=
| JSONDecodeError (msg : string)
| KeyError (key : string)
| TypeError
| AttributeError
| ValueError
| ZeroDivisionError.

Inductive result (A : Type) : Type :=
| Ok (a : A)
| Raise (e : exn).

Arguments Ok {A} a.
Arguments Raise {A} e.

Definition bind {A B : Type} (c : result A) (k : A -> result B) : result B :=
  match c with
  | Ok a => k a
  | Raise e => Raise e
  end.

Notation "x <- c ;; k" := (bind c (fun x => k))
  (at level 61, c at next level, right associativity).

Fixpoint mapM {A B : Type} (f : A -> result B) (l : list A) : result (list B) :=
  match l with
  | [] => Ok []
  | x :: l' => y <- f x ;; ys <- mapM f l' ;; Ok (y :: ys)
  end.

Fixpoint foldM {A S : Type} (f : S -> A -> result S) (l : list A) (s : S)
  : result S :=
  match l with
  | [] => Ok s
  | x :: l' => s' <- f s x ;; foldM f l' s'
  end.

(** ** Python numbers *)

Inductive num : Type :=
| Fin (q : Q)
| Inf.

Definition num_eqb (x y : num) : bool :=
  match x, y with
  | Fin a, Fin b => Qeq_bool a b
  | Inf, Inf => true
  | _, _ => false
  end.

(** [x < y] on numbers. *)
Definition num_ltb (x y : num) : bool :=
  match x, y with
  | Fin a, Fin b => negb (Qle_bool b a)
  | Fin _, Inf => true
  | Inf, _ => false
  end.

Definition num_add (x y : num) : num :=
  match x, y with
  | Fin a, Fin b => Fin (a + b)
  | _, _ => Inf
  end.

(** [x - c] for a finite [c]. *)
Definition num_sub_Z (x : num) (c : Z) : num :=
  match x with
  | Fin a => Fin (a - inject_Z c)
  | Inf => Inf
  end.

(** [x ** 2]. *)
Definition num_sq (x : num) : num :=
  match x with
  | Fin a => Fin (a ^ 2)
  | Inf => Inf
  end.

(** [x / n] where [n] is a [len(...)]: raises on zero. *)
Definition truediv_len (x : num) (n : nat) : result num :=
  match n with
  | O => Raise ZeroDivisionError
  | S _ =>
      Ok (match x with
          | Fin a => Fin (a / inject_Z (Z.of_nat n))
          | Inf => Inf
          end)
  end.

(** [a / b] on two ints (true division). *)
Definition truediv_int (a b : Z) : result num :=
  if (b =? 0)%Z then Raise ZeroDivisionError
  else Ok (Fin (inject_Z a / inject_Z b)).

(** [sum(l)] on a list of numbers: starts from 0, adds left to right. *)
Definition num_sum (l : list num) : num :=
  fold_left num_add l (Fin 0).

(** Nearest integer, ties to the even one. *)
Definition round_half_even (q : Q) : Z :=
  let n := Qnum q in
  let d := Zpos (Qden q) in
  let f := (n / d)%Z in
  let r := (2 * (n mod d))%Z in
  if (r <? d)%Z then f
  else if (d <? r)%Z then (f + 1)%Z
  else if Z.even f then f else (f + 1)%Z.

(** [round(x, ndigits)]. *)
Definition py_round (x : num) (ndigits : nat) : num :=
  match x with
  | Fin q =>
      let p := inject_Z (10 ^ Z.of_nat ndigits) in
      Fin (inject_Z (round_half_even (q * p)) / p)
  | Inf => Inf
  end.

(** ** Python values *)

(** Hashable values: what a dictionary key can be. *)
Inductive hkey : Type :=
| KNone
| KBool (b : bool)
| KNum (x : num)
| KStr (s : string).

Inductive pyval : Type :=
| VNone
| VBool (b : bool)
| VNum (x : num)
| VStr (s : string)
| VList (l : list pyval)
| VDict (d : list (hkey * pyval)).

Definition num_of_bool (b : bool) : num := Fin (if b then 1 else 0).

(** The numeric value of a key, when it has one ([True == 1]). *)
Definition key_num (k : hkey) : option num :=
  match k with
  | KBool b => Some (num_of_bool b)
  | KNum x => Some x
  | _ => None
  end.

(** [k1 == k2] on keys. *)
Definition key_eqb (k1 k2 : hkey) : bool :=
  match k1, k2 with
  | KNone, KNone => true
  | KStr a, KStr b => String.eqb a b
  | _, _ =>
      match key_num k1, key_num k2 with
      | Some x, Some y => num_eqb x y
      | _, _ => false
      end
  end.

(** [k1 < k2] on keys: numbers with numbers, strings with strings. *)
Definition key_lt (k1 k2 : hkey) : result bool :=
  match k1, k2 with
  | KStr a, KStr b => Ok (String.ltb a b)
  | _, _ =>
      match key_num k1, key_num k2 with
      | Some x, Some y => Ok (num_ltb x y)
      | _, _ => Raise TypeError
      end
  end.

(** Truth value of a key, as in [if best_model:]. *)
Definition key_truthy (k : hkey) : bool :=
  match k with
  | KNone => false
  | KBool b => b
  | KNum (Fin q) => negb (Qeq_bool q 0)
  | KNum Inf => true
  | KStr s => negb (String.eqb s "")
  end.

Definition key_val (k : hkey) : pyval :=
  match k with
  | KNone => VNone
  | KBool b => VBool b
  | KNum x => VNum x
  | KStr s => VStr s
  end.

(** Hashing a value on its way into a dictionary: lists and dicts are
    unhashable. *)
Definition hash_key (v : pyval) : result hkey :=
  match v with
  | VNone => Ok KNone
  | VBool b => Ok (KBool b)
  | VNum x => Ok (KNum x)
  | VStr s => Ok (KStr s)
  | VList _ | VDict _ => Raise TypeError
  end.

(** The number a value stands for in arithmetic. *)
Definition as_num (v : pyval) : result num :=
  match v with
  | VBool b => Ok (num_of_bool b)
  | VNum x => Ok x
  | _ => Raise TypeError
  end.

(** ** Insertion-ordered dictionaries *)

Section ODict.
Variable V : Type.

Fixpoint od_get (k : hkey) (d : list (hkey * V)) : option V :=
  match d with
  | [] => None
  | (k', v) :: d' => if key_eqb k' k then Some v else od_get k d'
  end.

(** [d[k] = v]: replaces the value in place, or appends a new entry. *)
Fixpoint od_set (k : hkey) (v : V) (d : list (hkey * V)) : list (hkey * V) :=
  match d with
  | [] => [(k, v)]
  | (k', v') :: d' =>
      if key_eqb k' k then (k', v) :: d' else (k', v') :: od_set k v d'
  end.

(** [d[k]] on a [defaultdict] whose factory gives [dflt], followed by the
    in-place mutation [f] of the value found or created. *)
Fixpoint od_upd (k : hkey) (dflt : V) (f : V -> V) (d : list (hkey * V))
  : list (hkey * V) :=
  match d with
  | [] => [(k, f dflt)]
  | (k', v') :: d' =>
      if key_eqb k' k then (k', f v') :: d' else (k', v') :: od_upd k dflt f d'
  end.

End ODict.

(** [a == b] on values. Dictionaries compare as mappings, whatever the
    order of their entries. *)
Fixpoint py_eqb (a b : pyval) {struct a} : bool :=
  match a, b with
  | VNone, VNone => true
  | VStr s, VStr t => String.eqb s t
  | VBool x, VBool y => num_eqb (num_of_bool x) (num_of_bool y)
  | VBool x, VNum y => num_eqb (num_of_bool x) y
  | VNum x, VBool y => num_eqb x (num_of_bool y)
  | VNum x, VNum y => num_eqb x y
  | VList xs, VList ys =>
      (fix go (xs ys : list pyval) {struct xs} : bool :=
         match xs, ys with
         | [], [] => true
         | x :: xs', y :: ys' => py_eqb x y && go xs' ys'
         | _, _ => false
         end) xs ys
  | VDict d, VDict e =>
      Nat.eqb (length d) (length e) &&
      (fix go (d : list (hkey * pyval)) {struct d} : bool :=
         match d with
         | [] => true
         | (k, v) :: d' =>
             match od_get k e with
             | Some w => py_eqb v w
             | None => false
             end && go d'
         end) d
  | _, _ => false
  end.

(** ** The Aggregator: analyze_results.py *)

(** One group's statistics: the inner dictionary
    [{'brier_scores': [], 'correct_count': 0, 'total_count': 0,
      'durations': []}]. *)
Record stats : Type := mk_stats {
  brier_scores : list num;
  correct_count : Z;
  total_count : Z;
  durations : list pyval
}.

Definition new_stats : stats := mk_stats [] 0 0 [].

(** [category_model_stats] and [overall_model_stats]. *)
Definition model_stats : Type := list (hkey * stats).
Definition category_stats : Type := list (hkey * model_stats).
Definition agg : Type := (category_stats * model_stats)%type.

Definition empty_agg : agg := ([], []).

(** [r[k]]. *)
Definition getitem (r : pyval) (k : string) : result pyval :=
  match r with
  | VDict d =>
      match od_get (KStr k) d with
      | Some v => Ok v
      | None => Raise (KeyError k)
      end
  | _ => Raise TypeError
  end.

(** [r.get(k, dflt)]. *)
Definition dict_get (r : pyval) (k : string) (dflt : pyval) : result pyval :=
  match r with
  | VDict d =>
      Ok (match od_get (KStr k) d with
          | Some v => v
          | None => dflt
          end)
  | _ => Raise AttributeError
  end.

(** [1 if true_intent == predicted_intent else 0]. *)
Definition is_correct_of (true_intent predicted_intent : pyval) : Z :=
  if py_eqb true_intent predicted_intent then 1%Z else 0%Z.

(** [(confidence - is_correct)**2]. *)
Definition brier_score_of (confidence : pyval) (is_correct : Z) : result num :=
  c <- as_num confidence ;;
  Ok (num_sq (num_sub_Z c is_correct)).

(** The four updates made to a group for one attempt. *)
Definition record_attempt (brier_score : num) (is_correct : Z)
  (duration : pyval) (s : stats) : stats :=
  mk_stats (brier_scores s ++ [brier_score])
           (correct_count s + is_correct)
           (total_count s + 1)
           (durations s ++ [duration]).

(** The body of [for r in results]. *)
Definition process_record (st : agg) (r : pyval) : result agg :=
  model <- getitem r "model" ;;
  true_intent <- getitem r "category" ;;
  predicted_intent <- dict_get r "intent" (VStr "unknown") ;;
  confidence <- dict_get r "confidence" (VNum (Fin 0)) ;;
  duration <- dict_get r "duration" (VNum (Fin 0)) ;;
  let is_correct := is_correct_of true_intent predicted_intent in
  brier_score <- brier_score_of confidence is_correct ;;
  ck <- hash_key true_intent ;;
  mk <- hash_key model ;;
  let upd := record_attempt brier_score is_correct duration in
  Ok (od_upd ck [] (od_upd mk new_stats upd) (fst st),
      od_upd mk new_stats upd (snd st)).

(** Step 1: the whole aggregation loop. *)
Definition aggregate (results : list pyval) : result agg :=
  foldM process_record results empty_agg.

(** [sum(l) / len(l) if l else float('inf')] on the scores of a group. *)
Definition avg_brier_of (s : stats) : result num :=
  match brier_scores s with
  | [] => Ok Inf
  | l => truediv_len (num_sum l) (length l)
  end.

(** [sum(l)] on raw values: a non-number raises. *)
Definition py_sum (l : list pyval) : result num :=
  foldM (fun acc v => x <- as_num v ;; Ok (num_add acc x)) l (Fin 0).

(** [correct_count / total_count if total_count > 0 else 0]. *)
Definition accuracy_of (s : stats) : result num :=
  if (total_count s >? 0)%Z
  then truediv_int (correct_count s) (total_count s)
  else Ok (Fin 0).

(** [sum(durations) / len(durations) if durations else 0]. *)
Definition avg_duration_of (s : stats) : result num :=
  match durations s with
  | [] => Ok (Fin 0)
  | l => t <- py_sum l ;; truediv_len t (length l)
  end.

(** The body of the winner loops: a candidate takes the lead only on a
    strictly lower average. *)
Definition winner_step (acc : option hkey * num) (item : hkey * stats)
  : result (option hkey * num) :=
  avg_brier <- avg_brier_of (snd item) ;;
  if num_ltb avg_brier (snd acc)
  then Ok (Some (fst item), avg_brier)
  else Ok acc.

(** The winner loop, from [best_model = None] and
    [lowest_brier_score = float('inf')]. *)
Definition select_winner (models_data : model_stats)
  : result (option hkey * num) :=
  foldM winner_step models_data (None, Inf).

(** A winner's entry; the model is stored under ['best_model'] in
    [per_category] and under ['model'] in [overall_winner]. *)
Record winner : Type := mk_winner {
  best_model : hkey;
  w_brier_score : num;
  w_accuracy : num;
  w_average_duration : num
}.

(** The winner loop of a scope followed by its [if best_model:] block. *)
Definition winner_entry (models_data : model_stats) : result (option winner) :=
  sel <- select_winner models_data ;;
  match fst sel with
  | None => Ok None
  | Some m =>
      if key_truthy m then
        let winner_stats :=
          match od_get m models_data with
          | Some s => s
          | None => new_stats
          end in
        accuracy <- accuracy_of winner_stats ;;
        avg_duration <- avg_duration_of winner_stats ;;
        Ok (Some (mk_winner m (py_round (snd sel) 4) (py_round accuracy 4)
                            (py_round avg_duration 2)))
      else Ok None
  end.

(** Step 2: the per-category winners. *)
Definition per_category_of (cms : category_stats)
  : result (list (hkey * winner)) :=
  foldM (fun (acc : list (hkey * winner)) (item : hkey * model_stats) =>
           w <- winner_entry (snd item) ;;
           match w with
           | Some e => Ok (od_set (fst item) e acc)
           | None => Ok acc
           end) cms [].

(** [a < b] on two [(model, stats)] tuples: the first components decide
    unless they are equal, and two dictionaries cannot be ordered. *)
Definition item_lt (a b : hkey * stats) : result bool :=
  if key_eqb (fst a) (fst b) then Raise TypeError
  else key_lt (fst a) (fst b).

Fixpoint insert_sorted (x : hkey * stats) (l : model_stats)
  : result model_stats :=
  match l with
  | [] => Ok [x]
  | y :: l' =>
      b <- item_lt x y ;;
      if b then Ok (x :: y :: l')
      else (r <- insert_sorted x l' ;; Ok (y :: r))
  end.

(** [sorted(overall_model_stats.items())]. *)
Fixpoint sorted (items : model_stats) : result model_stats :=
  match items with
  | [] => Ok []
  | x :: rest => s <- sorted rest ;; insert_sorted x s
  end.

(** A row of [model_performance_summary]. *)
Record row : Type := mk_row {
  r_model : hkey;
  correct_predictions : Z;
  incorrect_predictions : Z;
  r_accuracy : num;
  r_brier_score : num;
  r_average_duration : num
}.

(** The body of the table loop. *)
Definition table_row (item : hkey * stats) : result row :=
  let s := snd item in
  avg_brier <- avg_brier_of s ;;
  avg_duration <- avg_duration_of s ;;
  accuracy <- accuracy_of s ;;
  Ok (mk_row (fst item) (correct_count s) (total_count s - correct_count s)
             (py_round accuracy 4) (py_round avg_brier 4)
             (py_round avg_duration 2)).

(** Step 4: the summary table. *)
Definition table_data_of (oms : model_stats) : result (list row) :=
  items <- sorted oms ;;
  mapM table_row items.

Record summary : Type := mk_summary {
  per_category : list (hkey * winner);
  overall_winner : option winner;
  model_performance_summary : list row
}.

(** Steps 1 to 4 on the parsed records. *)
Definition summarize (results : list pyval) : result summary :=
  st <- aggregate results ;;
  pc <- per_category_of (fst st) ;;
  ow <- winner_entry (snd st) ;;
  td <- table_data_of (snd st) ;;
  Ok (mk_summary pc ow td).

(** ** The summary document and its JSON form *)

(** A JSON document, as [json.dump] writes it and [json.load] reads it:
    member names are strings, members keep their order. *)
Inductive json : Type :=
| JNull
| JBool (b : bool)
| JNumber (x : num)
| JString (s : string)
| JArray (l : list json)
| JObject (members : list (string * json)).

Definition num_of_Z (z : Z) : num := Fin (inject_Z z).

(** The dictionary literal of a winner's entry. *)
Definition winner_value (model_field : string) (w : winner) : pyval :=
  VDict [(KStr model_field, key_val (best_model w));
         (KStr "brier_score", VNum (w_brier_score w));
         (KStr "accuracy", VNum (w_accuracy w));
         (KStr "average_duration", VNum (w_average_duration w))].

(** The dictionary literal appended to [table_data]. *)
Definition row_value (r : row) : pyval :=
  VDict [(KStr "model", key_val (r_model r));
         (KStr "correct_predictions", VNum (num_of_Z (correct_predictions r)));
         (KStr "incorrect_predictions",
           VNum (num_of_Z (incorrect_predictions r)));
         (KStr "accuracy", VNum (r_accuracy r));
         (KStr "brier_score", VNum (r_brier_score r));
         (KStr "average_duration", VNum (r_average_duration r))].

(** The [summary] dictionary handed to [json.dump]. *)
Definition summary_value (s : summary) : pyval :=
  VDict [(KStr "per_category",
           VDict (map (fun kw => (fst kw, winner_value "best_model" (snd kw)))
                      (per_category s)));
         (KStr "overall_winner",
           match overall_winner s with
           | Some w => winner_value "model" w
           | None => VDict []
           end);
         (KStr "model_performance_summary",
           VList (map row_value (model_performance_summary s)))].

Definition nl : string := String "010"%char EmptyString.

(** [os.path.basename]: what follows the last slash. *)
Fixpoint basename_from (acc p : string) : string :=
  match p with
  | EmptyString => acc
  | String c p' =>
      if Ascii.eqb c "/"%char then basename_from EmptyString p'
      else basename_from (acc ++ String c EmptyString) p'
  end.

Definition basename (p : string) : string := basename_from EmptyString p.

(** [s.replace(pat, '')]: every occurrence of [pat], left to right, is
    dropped; [skip] counts the characters of an occurrence still to drop. *)
Fixpoint remove_from (pat : string) (skip : nat) (s : string) : string :=
  match s with
  | EmptyString => EmptyString
  | String c s' =>
      match skip with
      | S k => remove_from pat k s'
      | O =>
          if String.prefix pat s
          then remove_from pat (String.length pat - 1) s'
          else String c (remove_from pat O s')
      end
  end.

(** [os.path.join(dir, name)] for a non-empty [dir] that does not end
    with a slash. *)
Definition path_join (dir name : string) : string :=
  (dir ++ "/" ++ name)%string.

(** ['=' * n]. *)
Fixpoint repeat_eq (n : nat) : string :=
  match n with
  | O => EmptyString
  | S k => String "="%char (repeat_eq k)
  end.

(** What the process leaves behind. *)
Inductive event : Type :=
| Print (s : string)
| MakeDirs (path : string)
| WriteJson (path : string) (doc : json)
| WriteText (path : string) (text : string)
| SaveFig (path : string).

(** How the process ends: a normal return, [sys.exit(code)], or an
    exception nobody caught. *)
Inductive outcome : Type :=
| Returned
| Exited (code : Z)
| Uncaught (e : exn).

Definition exit_status (o : outcome) : Z :=
  match o with
  | Returned => 0
  | Exited code => code
  | Uncaught _ => 1
  end.

(** The JSON documents a run has written. *)
Fixpoint written_json (t : list event) : list (string * json) :=
  match t with
  | [] => []
  | WriteJson p d :: t' => (p, d) :: written_json t'
  | _ :: t' => written_json t'
  end.

(** The files of any kind a run has written. *)
Fixpoint written_paths (t : list event) : list string :=
  match t with
  | [] => []
  | WriteJson p _ :: t' => p :: written_paths t'
  | WriteText p _ :: t' => p :: written_paths t'
  | SaveFig p :: t' => p :: written_paths t'
  | _ :: t' => written_paths t'
  end.

Section Library.

(** [json.loads] on one line of text: the decoded value, or the message
    of the [JSONDecodeError]. *)
Variable json_loads : string -> string + pyval.

(** [repr] of a number, as used for a non-string dictionary key. *)
Variable num_repr : num -> string.

(** [tabulate(table_data, headers=headers, tablefmt="grid")]. *)
Variable tabulate : list row -> string.

(** The member name [json.dump] writes for a dictionary key. *)
Definition json_key (k : hkey) : string :=
  match k with
  | KStr s => s
  | KNone => "null"
  | KBool true => "true"
  | KBool false => "false"
  | KNum x => num_repr x
  end.

(** [str(k)], as an f-string formats it. *)
Definition key_str (k : hkey) : string :=
  match k with
  | KStr s => s
  | KNone => "None"
  | KBool true => "True"
  | KBool false => "False"
  | KNum x => num_repr x
  end.

(** [json.dump]: the document written for a value. *)
Fixpoint json_encode (v : pyval) : json :=
  match v with
  | VNone => JNull
  | VBool b => JBool b
  | VNum x => JNumber x
  | VStr s => JString s
  | VList l => JArray (map json_encode l)
  | VDict d => JObject (map (fun kv => (json_key (fst kv), json_encode (snd kv))) d)
  end.

(** [json.load]: the value read back from a document; a repeated member
    name keeps its first position and its last value. *)
Fixpoint json_decode (j : json) : pyval :=
  match j with
  | JNull => VNone
  | JBool b => VBool b
  | JNumber x => VNum x
  | JString s => VStr s
  | JArray l => VList (map json_decode l)
  | JObject m =>
      VDict (fold_left (fun acc kv => od_set (KStr (fst kv)) (snd kv) acc)
                       (map (fun kv => (fst kv, json_decode (snd kv))) m) [])
  end.

(** [results = [json.loads(line) for line in f]]: the first line that
    does not decode aborts the comprehension. *)
Fixpoint load_lines (lines : list string) : string + list pyval :=
  match lines with
  | [] => inr []
  | line :: rest =>
      match json_loads line with
      | inl msg => inl msg
      | inr v =>
          match load_lines rest with
          | inl msg => inl msg
          | inr vs => inr (v :: vs)
          end
      end
  end.

(** [create_plots(table_data, output_dir)]. *)
Definition create_plots (PLOTTING_ENABLED : bool) (table_data : list row)
  (output_dir : string) : list event :=
  if negb PLOTTING_ENABLED
  then [Print "Plotting libraries not found. Skipping plot generation."]
  else
    match table_data with
    | [] => [Print "No data to plot."]
    | _ =>
        let accuracy_plot_path := path_join output_dir "accuracy_comparison.png" in
        let brier_duration_plot_path :=
          path_join output_dir "brier_duration_comparison.png" in
        [SaveFig accuracy_plot_path;
         Print ("Accuracy plot saved to: " ++ accuracy_plot_path);
         SaveFig brier_duration_plot_path;
         Print ("Combined Brier/duration plot saved to: "
                ++ brier_duration_plot_path)]
    end.

(** Step 5: the output directory and the files. *)
Definition save_outputs (PLOTTING_ENABLED : bool) (filepath : string)
  (s : summary) : list event :=
  let base_name := remove_from ".jsonl" O (basename filepath) in
  let output_dir := ("analysis_for_" ++ base_name)%string in
  let json_summary_path := path_join output_dir "summary.json" in
  [MakeDirs output_dir;
   WriteJson json_summary_path (json_encode (summary_value s));
   Print ("JSON summary saved to: " ++ json_summary_path)]
  ++
  (if PLOTTING_ENABLED then
     let winner_model_name :=
       match overall_winner s with
       | Some w => key_str (best_model w)
       | None => "N/A"%string
       end in
     let text_summary_path := path_join output_dir "summary.txt" in
     [WriteText text_summary_path
        ("LLM Intent Classification Performance Summary" ++ nl
         ++ repeat_eq 40 ++ nl ++ nl
         ++ "Overall Winner (by lowest Brier Score): " ++ winner_model_name
         ++ nl ++ nl
         ++ tabulate (model_performance_summary s));
      Print ("Text summary saved to: " ++ text_summary_path)]
     ++ create_plots PLOTTING_ENABLED (model_performance_summary s) output_dir
   else
     [Print (nl ++ "Skipping TXT and plot generation.");
      Print "To enable, install optional dependencies: pip install matplotlib tabulate numpy"]).

(** [analyze_log_file(filepath)], where [file] is what [open(filepath)]
    finds: [None] when there is no such file, else the lines it yields. *)
Definition analyze_log_file (PLOTTING_ENABLED : bool) (filepath : string)
  (file : option (list string)) : list event * outcome :=
  let started := [Print ("Analyzing log file: " ++ filepath)] in
  match file with
  | None =>
      (started ++ [Print ("Error: Log file not found at '" ++ filepath ++ "'")],
       Exited 1)
  | Some lines =>
      match load_lines lines with
      | inl msg =>
          (started ++
           [Print ("Error: Could not decode JSON from '" ++ filepath
                   ++ "'. Invalid format on line. " ++ msg)],
           Exited 1)
      | inr [] =>
          (started ++ [Print "Log file is empty. Nothing to analyze."],
           Returned)
      | inr results =>
          match summarize results with
          | Raise e => (started, Uncaught e)
          | Ok s => (started ++ save_outputs PLOTTING_ENABLED filepath s,
                     Returned)
          end
      end
  end.

End Library.

(** ** The Producer's attempt loop: run_tests.py *)

(** [test_queries], in the order of the dictionary literal. *)
Definition test_queries : list (string * list string) :=
  [("weather",
    ["Do I need a jacket in Seattle tonight?";
     "What's the wind speed in Chicago?";
     "Will it rain in Houston this weekend?";
     "Is it snowing in Denver right now?";
     "How hot is it in Phoenix today?"]);
   ("time",
    ["What time is it in Berlin?";
     "Give me the current time in Tokyo.";
     "What's the local time in São Paulo?";
     "Tell me the time in UTC.";
     "Time now in Johannesburg?"]);
   ("map",
    ["Where is the Eiffel Tower located?";
     "Give me directions to Central Park.";
     "Find the nearest coffee shop to me.";
     "What country is the Great Pyramid of Giza in?";
     "Which continent is Egypt in?"]);
   ("llm",
    ["What is the capital of France?";
     "Tell me something interesting about ancient Rome.";
     "What year did the Berlin Wall fall?";
     "Who painted the Mona Lisa?";
     "How many continents are there on Earth?"]);
   ("web_search",
    ["Search for the latest news on AI.";
     "Find the population of Canada.";
     "Who won the last Super Bowl?";
     "What's the stock price of Nvidia right now?";
     "Search for recent news about electric vehicles."]);
   ("math",
    ["What's 2+2?";
     "Calculate the square root of 16.";
     "If a car travels 60 miles in 1 hour, how far does it travel in 2.5 hours?";
     "What is 20% of $150?";
     "Multiply 23 by 7."]);
   ("date",
    ["What's today's date?";
     "Whats the date in New Zealand today?";
     "What day of the week was January 1, 2000?";
     "How many days are there until Christmas?";
     "What’s the date 10 days from now?"])]%string.

Section Producer.

Variable json_loads : string -> string + pyval.

(** [float(s)] on a string: [None] when it raises [ValueError]. *)
Variable float_of_str : string -> option num.

(** [s.strip()]. *)
Variable str_strip : string -> string.

(** The POST to [/api/generate] for a model and a prompt, timeout
    included: the message of the [RequestException] it raised, or the
    decoded body of the response with the time the call took. *)
Variable post_generate : string -> string -> string + (pyval * num).

(** The wording of the classification prompt. *)
Variable system_prompt : string.

(** [run_intent_classification_http]: the response text and the
    duration, or [(None, 0)] after a failed call. *)
Definition run_intent_classification_http (model system_prompt user_query : string)
  : result (option string * num) :=
  match post_generate model (system_prompt ++ nl ++ "User: " ++ user_query) with
  | inl _ => Ok (None, Fin 0)
  | inr (data, duration) =>
      response <- dict_get data "response" (VStr "") ;;
      match response with
      | VStr s => Ok (Some (str_strip s), duration)
      | _ => Raise AttributeError
      end
  end.

(** [float(v)]. *)
Definition py_float (v : pyval) : result num :=
  match v with
  | VBool b => Ok (num_of_bool b)
  | VNum x => Ok x
  | VStr s =>
      match float_of_str s with
      | Some x => Ok x
      | None => Raise ValueError
      end
  | VNone | VList _ | VDict _ => Raise TypeError
  end.

(** The [try] block on a response text: the intent and the confidence
    to record. Only [json.JSONDecodeError] is caught. *)
Definition parse_response (response_text : string) : result (pyval * num) :=
  match json_loads response_text with
  | inl _ => Ok (VStr "error", Fin 0)
  | inr parsed =>
      intent <- dict_get parsed "intent" (VStr "unknown") ;;
      raw_confidence <- dict_get parsed "confidence" VNone ;;
      confidence <- match raw_confidence with
                    | VNone => Ok (Fin 0)
                    | _ => py_float raw_confidence
                    end ;;
      Ok (intent, confidence)
  end.

(** The body of [for query in queries]: the record to append, or [None]
    when the attempt is skipped. *)
Definition attempt (model category query : string) : result (option pyval) :=
  r <- run_intent_classification_http model system_prompt query ;;
  match fst r with
  | None => Ok None
  | Some response_text =>
      ic <- parse_response response_text ;;
      Ok (Some (VDict [(KStr "model", VStr model);
                       (KStr "category", VStr category);
                       (KStr "query", VStr query);
                       (KStr "intent", fst ic);
                       (KStr "confidence", VNum (snd ic));
                       (KStr "duration", VNum (py_round (snd r) 2))]))
  end.

(** The three nested loops of step 5. [log] is the list of records
    appended so far; the second component is the exception that ended
    the run, if any. *)
Fixpoint query_loop (model category : string) (queries : list string)
  (log : list pyval) : list pyval * option exn :=
  match queries with
  | [] => (log, None)
  | query :: rest =>
      match attempt model category query with
      | Raise e => (log, Some e)
      | Ok None => query_loop model category rest log
      | Ok (Some record) => query_loop model category rest (log ++ [record])
      end
  end.

Fixpoint category_loop (model : string) (tq : list (string * list string))
  (log : list pyval) : list pyval * option exn :=
  match tq with
  | [] => (log, None)
  | (category, queries) :: rest =>
      match query_loop model category queries log with
      | (log', None) => category_loop model rest log'
      | stopped => stopped
      end
  end.

(** [models] is the list of names that steps 1 and 2 of [main] obtained. *)
Fixpoint model_loop (models : list string) (tq : list (string * list string))
  (log : list pyval) : list pyval * option exn :=
  match models with
  | [] => (log, None)
  | model :: rest =>
      match category_loop model tq log with
      | (log', None) => model_loop rest tq log'
      | stopped => stopped
      end
  end.

(** Step 5 of [main]: the records appended to a fresh log. *)
Definition run_benchmark (models : list string) : list pyval * option exn :=
  model_loop models test_queries [].

End Producer.

(** ** The record data model of the durable log *)

(** An Attempt Record with its defaults applied: the fields the
    aggregation reads. The predicted label is kept as the value found in
    the log, whatever its type. *)
Record attempt_record : Type := mk_attempt {
  a_model : string;
  a_category : string;
  a_predicted : pyval;
  a_confidence : Q;
  a_duration : Q
}.

(** An optional numeric field: absent gives the default, a finite number
    gives itself, anything else is not a number of the data model. *)
Definition numeric_field (d : list (hkey * pyval)) (k : string) (dflt : Q)
  : option Q :=
  match od_get (KStr k) d with
  | None => Some dflt
  | Some (VNum (Fin q)) => Some q
  | Some _ => None
  end.

(** Record normalization: a decoded line is an Attempt Record when it is
    an object whose [model] and [category] are strings and whose
    [confidence] and [duration], when present, are finite numbers; an
    absent [intent] is "unknown", an absent [confidence] or [duration]
    is 0.0. *)
Definition normalize (r : pyval) : option attempt_record :=
  match r with
  | VDict d =>
      match od_get (KStr "model") d, od_get (KStr "category") d,
            numeric_field d "confidence" 0, numeric_field d "duration" 0 with
      | Some (VStr m), Some (VStr c), Some conf, Some dur =>
          Some (mk_attempt m c
                  (match od_get (KStr "intent") d with
                   | Some v => v
                   | None => VStr "unknown"
                   end) conf dur)
      | _, _, _, _ => None
      end
  | _ => None
  end.

(** The log is a sequence of Attempt Records [recs]. *)
Definition normalized (results : list pyval) (recs : list attempt_record)
  : Prop :=
  map normalize results = map Some recs.

(** Correctness indicator and calibration score of a record, in the
    words of the specification. *)
Definition correct (a : attempt_record) : Z :=
  if py_eqb (VStr (a_category a)) (a_predicted a) then 1%Z else 0%Z.

Definition score (a : attempt_record) : Q :=
  (a_confidence a - inject_Z (correct a)) ^ 2.

Definition Qsum (l : list Q) : Q := fold_left Qplus l 0.

(** Sum over count. *)
Definition mean (l : list Q) : Q :=
  Qsum l / inject_Z (Z.of_nat (length l)).

Definition Zsum (l : list Z) : Z := fold_left Z.add l 0%Z.

(** The attempts of a model, and of a model within a category. *)
Definition attempts_of (m : string) (recs : list attempt_record)
  : list attempt_record :=
  filter (fun a => String.eqb (a_model a) m) recs.

Definition in_category (c : string) (recs : list attempt_record)
  : list attempt_record :=
  filter (fun a => String.eqb (a_category a) c) recs.

(** Average calibration score of a model over a scope. *)
Definition mean_score (m : string) (scope : list attempt_record) : Q :=
  mean (map score (attempts_of m scope)).

(** The distinct names of a sequence, in order of first appearance. *)
Definition first_seen (names : list string) : list string :=
  fold_left (fun seen x => if existsb (String.eqb x) seen then seen
                           else seen ++ [x]) names [].

Definition models_of (recs : list attempt_record) : list string :=
  first_seen (map a_model recs).

Definition categories_of (recs : list attempt_record) : list string :=
  first_seen (map a_category recs).

(** The statistics a group of attempts amounts to. *)
Definition stats_for (l : list attempt_record) : stats :=
  mk_stats (map (fun a => Fin (score a)) l)
           (Zsum (map correct l))
           (Z.of_nat (length l))
           (map (fun a => VNum (Fin (a_duration a))) l).


(** The update one Attempt Record makes to a group. *)
Definition attempt_update (a : attempt_record) : stats -> stats :=
  record_attempt (Fin (score a)) (correct a) (VNum (Fin (a_duration a))).

(** The state after one Attempt Record. *)
Definition step (st : agg) (a : attempt_record) : agg :=
  (od_upd (KStr (a_category a)) []
          (od_upd (KStr (a_model a)) new_stats (attempt_update a)) (fst st),
   od_upd (KStr (a_model a)) new_stats (attempt_update a) (snd st)).

(** Grouping a sequence by a string key: one entry per distinct key, in
    order of first appearance, holding what [G] makes of the elements
    with that key. *)
Definition grouped (A V : Type) (key : A -> string) (G : list A -> V)
  (l : list A) : list (hkey * V) :=
  map (fun k => (KStr k, G (filter (fun a => String.eqb (key a) k) l)))
      (first_seen (map key l)).

(** The per-model statistics of a scope, and the per-category,
    per-model statistics of a log, in the words of the specification. *)
Definition overall_form (recs : list attempt_record) : model_stats :=
  grouped a_model stats_for recs.

Definition category_form (recs : list attempt_record) : category_stats :=
  grouped a_category overall_form recs.


(** ** Order on averages and the outcome of a winner loop *)

Definition num_lt (x y : num) : Prop := num_ltb x y = true.
Definition num_le (x y : num) : Prop := num_ltb y x = false.

(** The average [avg_brier_of] computes, as a value. *)
Definition avg_brier (s : stats) : num :=
  match brier_scores s with
  | [] => Inf
  | l =>
      match num_sum l with
      | Fin q => Fin (q / inject_Z (Z.of_nat (length l)))
      | Inf => Inf
      end
  end.

(** [selects items best low]: what it means for a winner loop over
    [items] to end with [best_model = best] and
    [lowest_brier_score = low]. Either nobody has a finite average, or
    the winner is an entry with at least one score whose average [low]
    is finite, strictly below the average of every entry met before it
    and not above the average of any entry met after it. *)
Definition selects (items : model_stats) (best : option hkey) (low : num)
  : Prop :=
  match best with
  | None =>
      low = Inf /\ Forall (fun it => avg_brier (snd it) = Inf) items
  | Some m =>
      exists pre st post,
        items = pre ++ (m, st) :: post
        /\ avg_brier st = low
        /\ num_lt low Inf
        /\ brier_scores st <> []
        /\ Forall (fun it => num_lt low (avg_brier (snd it))) pre
        /\ Forall (fun it => num_le low (avg_brier (snd it))) post
  end.


(** ** Winners and rows in the words of the specification *)

(** Correct-count over count, and average duration, of a model in a
    scope. *)
Definition accuracy_in (m : string) (scope : list attempt_record) : Q :=
  inject_Z (Zsum (map correct (attempts_of m scope)))
  / inject_Z (Z.of_nat (length (attempts_of m scope))).

Definition mean_duration (m : string) (scope : list attempt_record) : Q :=
  mean (map a_duration (attempts_of m scope)).

(** [m] wins the scope: it has an attempt there, its average score is
    strictly below that of every model first seen before it, and not
    above that of any model first seen after it. *)
Definition is_winner (scope : list attempt_record) (m : string) : Prop :=
  exists pre post,
    models_of scope = pre ++ m :: post
    /\ (forall m', In m' pre -> mean_score m scope < mean_score m' scope)
    /\ (forall m', In m' post -> mean_score m scope <= mean_score m' scope).

(** The entry reported for a winner [m] of a scope. *)
Definition winner_of (m : string) (scope : list attempt_record) : winner :=
  mk_winner (KStr m)
            (py_round (Fin (mean_score m scope)) 4)
            (py_round (Fin (accuracy_in m scope)) 4)
            (py_round (Fin (mean_duration m scope)) 2).

(** What a scope reports: nothing when it is empty or when its winner
    has the empty name, else the entry of a winner. *)
Definition reports (scope : list attempt_record) (ow : option winner) : Prop :=
  match ow with
  | Some w => exists m, m <> EmptyString /\ is_winner scope m
                        /\ w = winner_of m scope
  | None => scope = [] \/ is_winner scope EmptyString
  end.


(** Strings in increasing order: the sort of the model identifiers. *)
Definition str_lt (a b : string) : Prop := String.ltb a b = true.

Fixpoint insert_name (x : string) (l : list string) : list string :=
  match l with
  | [] => [x]
  | y :: l' => if String.ltb x y then x :: y :: l' else y :: insert_name x l'
  end.

Fixpoint sort_names (l : list string) : list string :=
  match l with
  | [] => []
  | x :: rest => insert_name x (sort_names rest)
  end.

(** The row of a model, and the table: one row per distinct model, in
    increasing order of identifier. *)
Definition row_of (recs : list attempt_record) (m : string) : row :=
  let corrects := Zsum (map correct (attempts_of m recs)) in
  mk_row (KStr m) corrects
         (Z.of_nat (length (attempts_of m recs)) - corrects)
         (py_round (Fin (accuracy_in m recs)) 4)
         (py_round (Fin (mean_score m recs)) 4)
         (py_round (Fin (mean_duration m recs)) 2).

Definition table_form (recs : list attempt_record) : list row :=
  map (row_of recs) (sort_names (models_of recs)).

(** Attempts counted over all the groups of a dictionary. *)
Definition total_attempts (oms : model_stats) : Z :=
  Zsum (map (fun it => total_count (snd it)) oms).

Definition total_attempts_by_category (cms : category_stats) : Z :=
  Zsum (map (fun it => total_attempts (snd it)) cms).


(** The entries a category contributes to [per_category]. *)
Definition category_entries (g : string -> model_stats) (c : string)
  : list (hkey * winner) :=
  match winner_entry (g c) with
  | Ok (Some w) => [(KStr c, w)]
  | _ => []
  end.

(** [per_category], category by category in order of first appearance. *)
Definition per_category_form (recs : list attempt_record)
  : list (hkey * winner) :=
  flat_map (category_entries (fun c => overall_form (in_category c recs)))
           (categories_of recs).


(** A computation that does not end in a division by zero. *)
Definition no_zde (A : Type) (c : result A) : Prop :=
  c <> Raise ZeroDivisionError.


(** The path of the summary document written for a log. *)
Definition summary_path (filepath : string) : string :=
  path_join ("analysis_for_" ++ remove_from ".jsonl" O (basename filepath))
            "summary.json".


(** ** Documented defaults *)

(** [d.setdefault(k, v)]: the entry is added only when the key is absent. *)
Definition setdefault (k : string) (v : pyval) (d : list (hkey * pyval))
  : list (hkey * pyval) :=
  match od_get (KStr k) d with
  | Some _ => d
  | None => d ++ [(KStr k, v)]
  end.

(** A decoded record with the three defaults written in. *)
Definition with_defaults (d : list (hkey * pyval)) : list (hkey * pyval) :=
  setdefault "duration" (VNum (Fin 0))
    (setdefault "confidence" (VNum (Fin 0))
       (setdefault "intent" (VStr "unknown") d)).

(** ** Sample records *)

(** A record as the Producer writes it. *)
Definition sample_record (model category query intent : string)
  (confidence duration : Q) : pyval :=
  VDict [(KStr "model", VStr model);
         (KStr "category", VStr category);
         (KStr "query", VStr query);
         (KStr "intent", VStr intent);
         (KStr "confidence", VNum (Fin confidence));
         (KStr "duration", VNum (Fin duration))].

(** A wrong prediction made with confidence 2. *)
Definition overconfident_record : pyval :=
  sample_record "m" "weather" "Will it rain?" "time" 2 1.


(** A dictionary entry with a string key. *)
Definition str_entry (V : Type) (p : string * V) : hkey * V :=
  (KStr (fst p), snd p).


(** ** Sample library behaviour *)

(** The double quote, and a string between double quotes. *)
Definition dq : string := String "034"%char EmptyString.

Definition quoted (s : string) : string := (dq ++ s ++ dq)%string.

(** The message of [json.loads] on a text with no JSON value at its
    start. *)
Definition expecting_value : string :=
  "Expecting value: line 1 column 1 (char 0)".

(** A finite fragment of [json.loads]: the texts of [table] decode to
    the values listed for them, as Python decodes them; it is used on
    these texts and on texts that start with no JSON value. *)
Fixpoint loads_from (table : list (string * pyval)) (text : string)
  : string + pyval :=
  match table with
  | [] => inl expecting_value
  | (t, v) :: rest => if String.eqb t text then inr v else loads_from rest text
  end.

(** The text [{"intent": "weather", "confidence": "high"}] and the
    dictionary it decodes to. *)
Definition wrong_shape_text : string :=
  ("{" ++ quoted "intent" ++ ": " ++ quoted "weather" ++ ", "
   ++ quoted "confidence" ++ ": " ++ quoted "high" ++ "}")%string.

Definition wrong_shape_value : pyval :=
  VDict [(KStr "intent", VStr "weather"); (KStr "confidence", VStr "high")].

(** A finite fragment of [float()] on strings: "high" is no number. *)
Definition float_of_sample (s : string) : option num :=
  if String.eqb s "0.9" then Some (Fin 0.9) else None.

(** [strip] on texts that carry no outer whitespace. *)
Definition strip_sample (s : string) : string := s.

(** An inference service whose model answers every prompt with the text
    [response], in a second and a half. *)
Definition answers_with (response : string) (model prompt : string)
  : string + (pyval * num) :=
  inr (VDict [(KStr "model", VStr model);
              (KStr "response", VStr response);
              (KStr "done", VBool true)],
       Fin 1.5).

Definition answers_wrong_shape : string -> string -> string + (pyval * num) :=
  answers_with wrong_shape_text.

(** An inference service that never answers in time. *)
Definition always_times_out (model prompt : string)
  : string + (pyval * num) :=
  inl "Read timed out. (read timeout=60)"%string.


(** ** A sample log *)

(** The line the Producer writes for a record; the two numbers are given
    as their text. *)
Definition log_line (model category query intent confidence duration : string)
  : string :=
  ("{" ++ quoted "model" ++ ": " ++ quoted model ++ ", "
   ++ quoted "category" ++ ": " ++ quoted category ++ ", "
   ++ quoted "query" ++ ": " ++ quoted query ++ ", "
   ++ quoted "intent" ++ ": " ++ quoted intent ++ ", "
   ++ quoted "confidence" ++ ": " ++ confidence ++ ", "
   ++ quoted "duration" ++ ": " ++ duration ++ "}" ++ nl)%string.

(** Four attempts of two models. On "weather" both are right with
    confidence 0.9: a tie, "zeta" being first in the log. On "time"
    "alpha" is wrong with confidence 0.8 and "zeta" right with 0.5. *)
Definition sample_table : list (string * pyval) :=
  [(log_line "zeta" "weather" "Will it rain?" "weather" "0.9" "1.2",
    sample_record "zeta" "weather" "Will it rain?" "weather" 0.9 1.2);
   (log_line "alpha" "weather" "Will it rain?" "weather" "0.9" "0.7",
    sample_record "alpha" "weather" "Will it rain?" "weather" 0.9 0.7);
   (log_line "alpha" "time" "What time is it?" "Time" "0.8" "0.5",
    sample_record "alpha" "time" "What time is it?" "Time" 0.8 0.5);
   (log_line "zeta" "time" "What time is it?" "time" "0.5" "2.25",
    sample_record "zeta" "time" "What time is it?" "time" 0.5 2.25)].

Definition sample_lines : list string := map fst sample_table.

Definition sample_results : list pyval := map snd sample_table.

Definition sample_recs : list attempt_record :=
  [mk_attempt "zeta" "weather" (VStr "weather") 0.9 1.2;
   mk_attempt "alpha" "weather" (VStr "weather") 0.9 0.7;
   mk_attempt "alpha" "time" (VStr "Time") 0.8 0.5;
   mk_attempt "zeta" "time" (VStr "time") 0.5 2.25].

Definition sample_loads : string -> string + pyval := loads_from sample_table.

(** The sample log with a line that is no JSON in second place. *)
Definition broken_line : string := ("not json" ++ nl)%string.

Definition broken_lines : list string :=
  match sample_lines with
  | first :: rest => first :: broken_line :: rest
  | [] => [broken_line]
  end.

(** [repr] of the numbers of the examples. *)
Definition repr_sample (x : num) : string :=
  match x with
  | Inf => "inf"
  | Fin q => if Qeq_bool q 1 then "1" else "0"
  end.

(** A table renderer for the examples. *)
Definition tabulate_sample (rows : list row) : string := "".


(** ** The plan of a benchmark run *)

(** The attempts of step 5 of [main], as (model, category, query), in
    the order the three nested loops reach them. *)
Definition planned_attempts (models : list string)
  (tq : list (string * list string)) : list (string * string * string) :=
  flat_map (fun model =>
              flat_map (fun cq => map (fun query => (model, fst cq, query))
                                      (snd cq)) tq) models.

Section Plan.
Variable json_loads : string -> string + pyval.
Variable float_of_str : string -> option num.
Variable str_strip : string -> string.
Variable post_generate : string -> string -> string + (pyval * num).
Variable system_prompt : string.

Definition attempt_at (t : string * string * string)
  : result (option pyval) :=
  attempt json_loads float_of_str str_strip post_generate system_prompt
          (fst (fst t)) (snd (fst t)) (snd t).

(** The attempts that come before the first one that raises. *)
Fixpoint completed (l : list (string * string * string))
  : list (string * string * string) :=
  match l with
  | [] => []
  | t :: rest =>
      match attempt_at t with
      | Raise _ => []
      | Ok _ => t :: completed rest
      end
  end.

(** The exception of the first attempt that raises. *)
Fixpoint first_raise (l : list (string * string * string)) : option exn :=
  match l with
  | [] => None
  | t :: rest =>
      match attempt_at t with
      | Raise e => Some e
      | Ok _ => first_raise rest
      end
  end.

(** The record an attempt leaves in the log, if any. *)
Definition emitted (t : string * string * string) : list pyval :=
  match attempt_at t with
  | Ok (Some record) => [record]
  | _ => []
  end.

(** A list of attempts run from a log. *)
Definition run_attempts (l : list (string * string * string))
  (log : list pyval) : list pyval * option exn :=
  (log ++ flat_map emitted (completed l), first_raise l).

End Plan.

(** A record as [main] builds it: six fields in this order, strings for
    the model, the category and the query, numbers for the confidence
    and the duration. *)
Definition producer_record (r : pyval) : Prop :=
  exists (model category query : string) (intent : pyval) (confidence duration : num),
    r = VDict [(KStr "model", VStr model);
               (KStr "category", VStr category);
               (KStr "query", VStr query);
               (KStr "intent", intent);
               (KStr "confidence", VNum confidence);
               (KStr "duration", VNum duration)].


(** A response body the attempt loop goes through without raising: an
    object whose [response], when present, is a string; and when that
    string, stripped, is JSON, it is an object whose [confidence] is
    absent, null, a boolean, a number, or a string [float] accepts. *)
Definition confidence_ok (float_of_str : string -> option num)
  (d : list (hkey * pyval)) : Prop :=
  match od_get (KStr "confidence") d with
  | None | Some VNone | Some (VBool _) | Some (VNum _) => True
  | Some (VStr s) => float_of_str s <> None
  | Some (VList _) | Some (VDict _) => False
  end.

Definition response_ok (json_loads : string -> string + pyval)
  (float_of_str : string -> option num) (text : string) : Prop :=
  match json_loads text with
  | inl _ => True
  | inr (VDict d) => confidence_ok float_of_str d
  | inr _ => False
  end.

Definition body_ok (json_loads : string -> string + pyval)
  (float_of_str : string -> option num) (str_strip : string -> string)
  (data : pyval) : Prop :=
  match data with
  | VDict d =>
      match od_get (KStr "response") d with
      | None => response_ok json_loads float_of_str (str_strip EmptyString)
      | Some (VStr s) => response_ok json_loads float_of_str (str_strip s)
      | Some _ => False
      end
  | _ => False
  end.


(** ** Statistics the later steps accept *)

Definition numeric (v : pyval) : Prop := exists x, v = VNum x.

(** The durations of a group can be summed. *)
Definition summable (s : stats) : Prop := Forall numeric (durations s).

(** A dictionary whose keys are strings, no two the same. *)
Definition str_keys (V : Type) (d : list (hkey * V)) : Prop :=
  Forall (fun it => exists k, fst it = KStr k) d /\ NoDup (map fst d).

Definition tidy (oms : model_stats) : Prop :=
  str_keys oms /\ Forall (fun it => summable (snd it)) oms.


(** ** What the aggregation loop keeps true *)

(** A group that has received at least one attempt: it holds one score
    and one duration per attempt, and no more correct answers than
    attempts. *)
Definition counted (s : stats) : Prop :=
  (0 <= correct_count s <= total_count s)%Z
  /\ (1 <= total_count s)%Z
  /\ total_count s = Z.of_nat (length (brier_scores s))
  /\ length (durations s) = length (brier_scores s).

(** No key of the dictionary equals a later one. *)
Definition distinct_keys (V : Type) (d : list (hkey * V)) : Prop :=
  ForallOrdPairs (fun a b => key_eqb a b = false) (map fst d).

(** Every group of both dictionaries is [counted], and keys are
    distinct. *)
Definition well_grouped (st : agg) : Prop :=
  Forall (fun it => distinct_keys (snd it)
                    /\ Forall (fun g => counted (snd g)) (snd it)
                    /\ snd it <> []) (fst st)
  /\ distinct_keys (fst st)
  /\ distinct_keys (snd st)
  /\ Forall (fun g => counted (snd g)) (snd st).


(** The attempts a table accounts for. *)
Definition table_attempts (rows : list row) : Z :=
  Zsum (map (fun r => (correct_predictions r + incorrect_predictions r)%Z)
            rows).

(** What every row of a summary table satisfies. *)
Definition row_sound (r : row) : Prop :=
  (0 <= correct_predictions r)%Z
  /\ (0 <= incorrect_predictions r)%Z
  /\ (1 <= correct_predictions r + incorrect_predictions r)%Z
  /\ exists q, r_accuracy r = Fin q /\ 0 <= q <= 1.


(** ** Where the outputs go *)

(** [output_dir] of step 5. *)
Definition output_dir (filepath : string) : string :=
  ("analysis_for_" ++ remove_from ".jsonl" O (basename filepath))%string.

(** ['/' in s]. *)
Fixpoint has_slash (s : string) : bool :=
  match s with
  | EmptyString => false
  | String c s' => Ascii.eqb c "/"%char || has_slash s'
  end.

(** The files of a run with the optional libraries, and without. *)
Definition expected_paths (PLOTTING_ENABLED : bool) (dir : string)
  : list string :=
  if PLOTTING_ENABLED
  then [path_join dir "summary.json"; path_join dir "summary.txt";
        path_join dir "accuracy_comparison.png";
        path_join dir "brier_duration_comparison.png"]
  else [path_join dir "summary.json"].


(** ** The command line of the Aggregator *)

Section Script.
Variable json_loads : string -> string + pyval.
Variable num_repr : num -> string.
Variable tabulate : list row -> string.

(** The [__main__] block of analyze_results.py: [argv] is [sys.argv] and
    [fs] tells what [open] finds at a path. *)
Definition script_main (PLOTTING_ENABLED : bool) (argv : list string)
  (fs : string -> option (list string)) : list event * outcome :=
  match argv with
  | [_; log_file] =>
      analyze_log_file json_loads num_repr tabulate PLOTTING_ENABLED log_file
                       (fs log_file)
  | _ => ([Print "Usage: python analyze_results.py <path_to_jsonl_file>"],
          Exited 1)
  end.

End Script.


(** ** A run cut short *)

(** An inference service whose model answers "not json" to the first
    query of the benchmark and a response of the wrong shape to every
    other prompt. *)
Definition answers_once (model prompt : string) : string + (pyval * num) :=
  if String.eqb prompt
       ("Classify." ++ nl ++ "User: " ++ "Do I need a jacket in Seattle tonight?")
  then answers_with "not json" model prompt
  else answers_wrong_shape model prompt.

(** The line of the only record that run leaves, and a decoder for it. *)
Definition short_log_line : string :=
  log_line "gemma:2b" "weather" "Do I need a jacket in Seattle tonight?"
           "error" "0.0" "1.5".

Definition short_log_loads : string -> string + pyval :=
  loads_from
    [(short_log_line,
      sample_record "gemma:2b" "weather"
                    "Do I need a jacket in Seattle tonight?" "error" 0 1.50)].


(** ** The records the aggregation loop accepts *)

(** A value that can be a dictionary key. *)
Definition hashable (v : pyval) : Prop :=
  match v with
  | VList _ | VDict _ => False
  | _ => True
  end.

(** An object with a hashable [model] and [category] whose [confidence],
    when present, is a number or a boolean. *)
Definition accepted (r : pyval) : Prop :=
  match r with
  | VDict d =>
      match od_get (KStr "model") d, od_get (KStr "category") d with
      | Some model, Some category =>
          hashable model /\ hashable category
          /\ match od_get (KStr "confidence") d with
             | None | Some (VBool _) | Some (VNum _) => True
             | Some _ => False
             end
      | _, _ => False
      end
  | _ => False
  end.


(** What every reported winner satisfies. *)
Definition winner_sound (w : winner) : Prop :=
  key_truthy (best_model w) = true
  /\ (exists q, w_brier_score w = Fin q)
  /\ (exists q, w_accuracy w = Fin q /\ 0 <= q <= 1).


(** * Properties *)

(** ** Keys and values *)

Lemma key_eqb_str (a b : string) : key_eqb (KStr a) (KStr b) = String.eqb a b.
Proof. reflexivity. Qed.

Lemma py_eqb_str_iff (c : string) (p : pyval) :
  py_eqb (VStr c) p = true <-> p = VStr c.
Proof.
  destruct p; simpl; split; intro H; try discriminate; try congruence.
  - apply String.eqb_eq in H. now subst.
  - inversion H. apply String.eqb_refl.
Qed.

(** ** One record *)

Lemma numeric_field_get d k dflt q :
  numeric_field d k dflt = Some q ->
  match od_get (KStr k) d with
  | Some v => v
  | None => VNum (Fin dflt)
  end = VNum (Fin q).
Proof.
  unfold numeric_field.
  destruct (od_get (KStr k) d) as [v|]; [|congruence].
  destruct v as [| | [x|] | | |]; congruence.
Qed.

Lemma process_record_normalized (st : agg) (r : pyval) (a : attempt_record) :
  normalize r = Some a -> process_record st r = Ok (step st a).
Proof.
  unfold normalize. destruct r as [| | | | |d]; try discriminate.
  destruct (od_get (KStr "model") d) as [[| | |m| |]|] eqn:Hm; try discriminate.
  destruct (od_get (KStr "category") d) as [[| | |c| |]|] eqn:Hc; try discriminate.
  destruct (numeric_field d "confidence" 0) as [conf|] eqn:Hconf; try discriminate.
  destruct (numeric_field d "duration" 0) as [dur|] eqn:Hdur; try discriminate.
  intros [= <-].
  apply numeric_field_get in Hconf, Hdur.
  unfold process_record, getitem, dict_get. rewrite Hm, Hc. cbn [bind].
  rewrite Hconf, Hdur. reflexivity.
Qed.

Lemma correct_cases (a : attempt_record) :
  correct a = 1%Z /\ a_predicted a = VStr (a_category a)
  \/ correct a = 0%Z /\ a_predicted a <> VStr (a_category a).
Proof.
  unfold correct.
  destruct (py_eqb (VStr (a_category a)) (a_predicted a)) eqn:E.
  - left. split; [reflexivity|]. now apply py_eqb_str_iff.
  - right. split; [reflexivity|]. intro H.
    apply py_eqb_str_iff in H. congruence.
Qed.

Lemma score_unit_interval (a : attempt_record) :
  0 <= a_confidence a <= 1 -> 0 <= score a <= 1.
Proof.
  intros [H0 H1]. unfold score.
  generalize dependent (a_confidence a). intros q H0 H1.
  destruct (correct_cases a) as [[-> _]|[-> _]]; simpl;
    [change (inject_Z 1) with 1 | change (inject_Z 0) with 0];
    split; nra.
Qed.


(** ** Order of first appearance *)

Lemma first_seen_snoc (l : list string) (x : string) :
  first_seen (l ++ [x]) =
  if existsb (String.eqb x) (first_seen l) then first_seen l
  else first_seen l ++ [x].
Proof. unfold first_seen. now rewrite fold_left_app. Qed.

Lemma existsb_eqb_In (x : string) (l : list string) :
  existsb (String.eqb x) l = true <-> In x l.
Proof.
  rewrite existsb_exists. split.
  - intros [y [Hy E]]. apply String.eqb_eq in E. now subst.
  - intro H. exists x. split; [assumption|apply String.eqb_refl].
Qed.

Lemma first_seen_In (l : list string) (x : string) :
  In x (first_seen l) <-> In x l.
Proof.
  induction l as [|y l IH] using rev_ind; [reflexivity|].
  rewrite first_seen_snoc.
  destruct (existsb (String.eqb y) (first_seen l)) eqn:E.
  - apply existsb_eqb_In in E. rewrite in_app_iff, IH. simpl.
    split; [tauto|]. intros [H|[<-|[]]]; [assumption|now apply IH].
  - rewrite !in_app_iff, IH. reflexivity.
Qed.

Lemma first_seen_NoDup (l : list string) : NoDup (first_seen l).
Proof.
  induction l as [|y l IH] using rev_ind; [constructor|].
  rewrite first_seen_snoc.
  destruct (existsb (String.eqb y) (first_seen l)) eqn:E; [assumption|].
  apply NoDup_rev in IH. rewrite <- (rev_involutive (first_seen l ++ [y])).
  apply NoDup_rev. rewrite rev_app_distr. simpl. constructor; [|assumption].
  rewrite <- in_rev. intro H. apply existsb_eqb_In in H. congruence.
Qed.

(** ** Updating a dictionary with string keys *)

Section OdUpdMap.
Variable V : Type.
Variables (dflt : V) (f : V -> V) (m : string).

Lemma od_upd_absent (g : string -> V) (keys : list string) :
  ~ In m keys ->
  od_upd (KStr m) dflt f (map (fun k => (KStr k, g k)) keys) =
  map (fun k => (KStr k, g k)) keys ++ [(KStr m, f dflt)].
Proof.
  induction keys as [|k keys IH]; intro H; [reflexivity|].
  simpl. destruct (String.eqb k m) eqn:E.
  - apply String.eqb_eq in E. subst. exfalso. apply H. now left.
  - rewrite IH; [reflexivity|]. intro. apply H. now right.
Qed.

Lemma od_upd_present (g : string -> V) (keys : list string) :
  NoDup keys -> In m keys ->
  od_upd (KStr m) dflt f (map (fun k => (KStr k, g k)) keys) =
  map (fun k => (KStr k, if String.eqb k m then f (g k) else g k)) keys.
Proof.
  induction keys as [|k keys IH]; intros Hnd Hin; [destruct Hin|].
  inversion Hnd as [|? ? Hk Hnd']; subst.
  simpl. destruct (String.eqb k m) eqn:E.
  - apply String.eqb_eq in E. subst. f_equal.
    apply map_ext_in. intros k Hk'.
    destruct (String.eqb k m) eqn:E'; [|reflexivity].
    apply String.eqb_eq in E'. subst. contradiction.
  - f_equal. apply IH; [assumption|].
    destruct Hin as [->|]; [|assumption].
    rewrite String.eqb_refl in E. discriminate.
Qed.

End OdUpdMap.

(** ** Grouping is what the aggregation loop computes *)

Section Grouping.
Variables A V : Type.
Variable key : A -> string.
Variable G : list A -> V.
Variable dflt : V.
Variable upd : A -> V -> V.
Hypothesis G_nil : G [] = dflt.
Hypothesis G_snoc : forall l a, G (l ++ [a]) = upd a (G l).

Lemma filter_key_absent (l : list A) (k : string) :
  ~ In k (map key l) -> filter (fun a => String.eqb (key a) k) l = [].
Proof.
  induction l as [|a l IH]; intro H; [reflexivity|].
  simpl. destruct (String.eqb (key a) k) eqn:E.
  - apply String.eqb_eq in E. exfalso. apply H. now left.
  - apply IH. intro. apply H. now right.
Qed.

Lemma grouped_snoc (l : list A) (a : A) :
  grouped key G (l ++ [a]) = od_upd (KStr (key a)) dflt (upd a) (grouped key G l).
Proof.
  unfold grouped. rewrite map_app. simpl map at 1.
  rewrite first_seen_snoc.
  destruct (existsb (String.eqb (key a)) (first_seen (map key l))) eqn:E.
  - apply existsb_eqb_In in E.
    rewrite od_upd_present by (try apply first_seen_NoDup; assumption).
    apply map_ext. intro k. rewrite filter_app. simpl.
    destruct (String.eqb k (key a)) eqn:E'.
    + apply String.eqb_eq in E'. subst. rewrite String.eqb_refl.
      now rewrite G_snoc.
    + rewrite String.eqb_sym, E'. now rewrite app_nil_r.
  - assert (Hn : ~ In (key a) (first_seen (map key l))).
    { intro H. apply existsb_eqb_In in H. congruence. }
    rewrite od_upd_absent by assumption.
    rewrite map_app. simpl. f_equal.
    + apply map_ext_in. intros k Hk. rewrite filter_app. simpl.
      destruct (String.eqb (key a) k) eqn:E'; [|now rewrite app_nil_r].
      apply String.eqb_eq in E'. subst. contradiction.
    + rewrite filter_app. simpl. rewrite String.eqb_refl.
      rewrite filter_key_absent; [|now rewrite first_seen_In in Hn].
      simpl. rewrite <- G_nil. now rewrite <- G_snoc.
Qed.

End Grouping.

Lemma Zsum_snoc (l : list Z) (z : Z) : Zsum (l ++ [z]) = (Zsum l + z)%Z.
Proof. unfold Zsum. now rewrite fold_left_app. Qed.

Lemma stats_for_snoc (l : list attempt_record) (a : attempt_record) :
  stats_for (l ++ [a]) = attempt_update a (stats_for l).
Proof.
  unfold stats_for, attempt_update, record_attempt.
  rewrite !map_app, length_app. cbn [map length]. rewrite Zsum_snoc.
  cbn [brier_scores correct_count total_count durations].
  f_equal. lia.
Qed.

Lemma overall_form_snoc (l : list attempt_record) (a : attempt_record) :
  overall_form (l ++ [a]) =
  od_upd (KStr (a_model a)) new_stats (attempt_update a) (overall_form l).
Proof.
  unfold overall_form.
  apply grouped_snoc; [reflexivity|apply stats_for_snoc].
Qed.

Lemma category_form_snoc (l : list attempt_record) (a : attempt_record) :
  category_form (l ++ [a]) =
  od_upd (KStr (a_category a)) []
         (od_upd (KStr (a_model a)) new_stats (attempt_update a))
         (category_form l).
Proof.
  unfold category_form.
  apply (grouped_snoc a_category overall_form (dflt := [])
           (fun a => od_upd (KStr (a_model a)) new_stats (attempt_update a)));
    [reflexivity|apply overall_form_snoc].
Qed.

Lemma fold_step_forms (recs : list attempt_record) :
  fold_left step recs empty_agg = (category_form recs, overall_form recs).
Proof.
  induction recs as [|a recs IH] using rev_ind; [reflexivity|].
  rewrite fold_left_app. simpl. rewrite IH. unfold step. simpl.
  now rewrite category_form_snoc, overall_form_snoc.
Qed.

Lemma foldM_process_normalized (results : list pyval) :
  forall (recs : list attempt_record) (st : agg),
    normalized results recs ->
    foldM process_record results st = Ok (fold_left step recs st).
Proof.
  unfold normalized.
  induction results as [|r results IH]; intros [|a recs] st H;
    try discriminate; [reflexivity|].
  simpl in H. injection H as Hr Hrest.
  simpl. rewrite (process_record_normalized st r Hr). simpl.
  now apply IH.
Qed.

(** On a log of Attempt Records the aggregation loop ends normally, with
    the statistics of each group of the log. *)
Lemma aggregate_normalized (results : list pyval)
  (recs : list attempt_record) :
  normalized results recs ->
  aggregate results = Ok (category_form recs, overall_form recs).
Proof.
  intro H. unfold aggregate.
  rewrite (foldM_process_normalized empty_agg H).
  now rewrite fold_step_forms.
Qed.

(** ** Order on numbers *)

Lemma num_lt_fin (a b : Q) : num_lt (Fin a) (Fin b) <-> a < b.
Proof.
  unfold num_lt. simpl. rewrite negb_true_iff.
  split.
  - intro H. apply Qnot_le_lt. intro Hle.
    apply Qle_bool_iff in Hle. congruence.
  - intro H. destruct (Qle_bool b a) eqn:E; [|reflexivity].
    apply Qle_bool_iff in E. exfalso. now apply (Qlt_not_le a b).
Qed.

Lemma num_le_fin (a b : Q) : num_le (Fin a) (Fin b) <-> a <= b.
Proof.
  unfold num_le. simpl. rewrite negb_false_iff. apply Qle_bool_iff.
Qed.

Lemma num_le_inf (x : num) : num_le x Inf.
Proof. reflexivity. Qed.

Lemma num_lt_inf (x : num) : num_lt x Inf <-> exists q, x = Fin q.
Proof.
  destruct x as [q|]; unfold num_lt; simpl; split; try discriminate.
  - intros _. now exists q.
  - reflexivity.
  - intros [q H]. discriminate.
Qed.

Lemma num_le_inf_eq (x : num) : num_le Inf x -> x = Inf.
Proof. destruct x; [discriminate|reflexivity]. Qed.

Lemma num_lt_or_le (x y : num) : num_lt x y \/ num_le y x.
Proof. unfold num_lt, num_le. destruct (num_ltb x y); auto. Qed.

Lemma num_lt_irrefl (x : num) : ~ num_lt x x.
Proof.
  destruct x as [q|]; [|discriminate].
  rewrite num_lt_fin. apply Qlt_irrefl.
Qed.

Lemma num_lt_trans (x y z : num) : num_lt x y -> num_lt y z -> num_lt x z.
Proof.
  destruct x as [a|], y as [b|], z as [c|]; try discriminate; try reflexivity.
  rewrite !num_lt_fin. apply Qlt_trans.
Qed.

Lemma num_lt_le_trans (x y z : num) : num_lt x y -> num_le y z -> num_lt x z.
Proof.
  destruct x as [a|], y as [b|], z as [c|]; try discriminate; try reflexivity.
  rewrite !num_lt_fin, num_le_fin. apply Qlt_le_trans.
Qed.

Lemma num_lt_le (x y : num) : num_lt x y -> num_le x y.
Proof.
  destruct x as [a|], y as [b|]; try discriminate; try reflexivity.
  rewrite num_lt_fin, num_le_fin. apply Qlt_le_weak.
Qed.

(** ** The winner loop *)

Lemma avg_brier_of_ok (s : stats) : avg_brier_of s = Ok (avg_brier s).
Proof.
  unfold avg_brier_of, avg_brier.
  destruct (brier_scores s) as [|x l]; reflexivity.
Qed.

Lemma winner_step_ok (best : option hkey) (low : num) (item : hkey * stats) :
  winner_step (best, low) item =
  Ok (if num_ltb (avg_brier (snd item)) low
      then (Some (fst item), avg_brier (snd item))
      else (best, low)).
Proof.
  unfold winner_step. rewrite avg_brier_of_ok. simpl.
  now destruct (num_ltb (avg_brier (snd item)) low).
Qed.

(** The loop from any leader [(b0, l0)]: it ends normally; either the
    leader stands and no entry is strictly below [l0], or the new leader
    is the first entry attaining the lowest average, which is below
    [l0]. *)
Lemma winner_loop_from (items : model_stats) :
  forall (b0 : option hkey) (l0 : num),
  exists b l,
    foldM winner_step items (b0, l0) = Ok (b, l)
    /\ ((b = b0 /\ l = l0
         /\ Forall (fun it => num_le l0 (avg_brier (snd it))) items)
        \/ (exists m pre st post,
              b = Some m
              /\ items = pre ++ (m, st) :: post
              /\ avg_brier st = l
              /\ num_lt l l0
              /\ Forall (fun it => num_lt l (avg_brier (snd it))) pre
              /\ Forall (fun it => num_le l (avg_brier (snd it))) post)).
Proof.
  induction items as [|[k s] items IH]; intros b0 l0.
  - exists b0, l0. split; [reflexivity|]. left. auto.
  - cbn [foldM]. rewrite winner_step_ok. cbn [bind fst snd].
    destruct (num_ltb (avg_brier s) l0) eqn:E.
    + destruct (IH (Some k) (avg_brier s)) as (b & l & Hrun & Hcase).
      exists b, l. split; [exact Hrun|]. right.
      destruct Hcase as [(-> & -> & Hall)
                        |(m & pre & st & post & -> & -> & Hl & Hlt & Hpre & Hpost)].
      * exists k, [], s, items. repeat split; auto.
      * exists m, ((k, s) :: pre), st, post. repeat split; auto.
        now apply num_lt_trans with (avg_brier s).
    + destruct (IH b0 l0) as (b & l & Hrun & Hcase).
      exists b, l. split; [exact Hrun|].
      destruct Hcase as [(-> & -> & Hall)
                        |(m & pre & st & post & -> & -> & Hl & Hlt & Hpre & Hpost)].
      * left. repeat split; auto.
      * right. exists m, ((k, s) :: pre), st, post. repeat split; auto.
        constructor; [|assumption]. simpl.
        now apply num_lt_le_trans with l0.
Qed.

Lemma avg_brier_finite_scores (s : stats) :
  num_lt (avg_brier s) Inf -> brier_scores s <> [].
Proof.
  unfold avg_brier. destruct (brier_scores s); [discriminate|discriminate].
Qed.

(** A winner loop always ends normally, and ends as [selects] says. *)
Lemma select_winner_selects (items : model_stats) :
  exists best low,
    select_winner items = Ok (best, low) /\ selects items best low.
Proof.
  destruct (winner_loop_from items None Inf) as (b & l & Hrun & Hcase).
  exists b, l. split; [exact Hrun|].
  destruct Hcase as [(-> & -> & Hall)
                    |(m & pre & st & post & -> & -> & Hl & Hlt & Hpre & Hpost)].
  - simpl. split; [reflexivity|].
    eapply Forall_impl; [|exact Hall]. intros it H.
    now apply num_le_inf_eq.
  - simpl. exists pre, st, post.
    split; [reflexivity|]. split; [assumption|]. split; [assumption|].
    split; [|split; assumption].
    apply avg_brier_finite_scores. now rewrite Hl.
Qed.

(** ** The statistics of a non-empty group *)

Lemma fold_num_add_fin (l : list Q) (q : Q) :
  fold_left num_add (map Fin l) (Fin q) = Fin (fold_left Qplus l q).
Proof.
  revert q. induction l as [|x l IH]; intro q; [reflexivity|].
  simpl. apply IH.
Qed.

Lemma num_sum_fin (l : list Q) : num_sum (map Fin l) = Fin (Qsum l).
Proof. apply fold_num_add_fin. Qed.

Lemma avg_brier_stats_for (l : list attempt_record) :
  l <> [] -> avg_brier (stats_for l) = Fin (mean (map score l)).
Proof.
  intro Hl. unfold avg_brier, stats_for. cbn [brier_scores].
  destruct l as [|a l]; [congruence|].
  cbn [map].
  change (Fin (score a) :: map (fun a0 => Fin (score a0)) l)
    with (map (fun a0 => Fin (score a0)) (a :: l)).
  rewrite <- (map_map score Fin), num_sum_fin.
  unfold mean. cbn [map length]. now rewrite !length_map.
Qed.

Lemma accuracy_of_stats_for (l : list attempt_record) :
  l <> [] ->
  accuracy_of (stats_for l) =
  Ok (Fin (inject_Z (Zsum (map correct l)) / inject_Z (Z.of_nat (length l)))).
Proof.
  intro Hl. unfold accuracy_of, truediv_int, stats_for.
  cbn [total_count correct_count].
  destruct l as [|a l]; [congruence|].
  replace (Z.of_nat (length (a :: l)) >? 0)%Z with true
    by (symmetry; apply Z.gtb_lt; simpl; lia).
  replace (Z.of_nat (length (a :: l)) =? 0)%Z with false
    by (symmetry; apply Z.eqb_neq; simpl; lia).
  reflexivity.
Qed.

Lemma py_sum_fin_from (l : list Q) (q : Q) :
  foldM (fun acc v => x <- as_num v ;; Ok (num_add acc x))
        (map (fun d => VNum (Fin d)) l) (Fin q)
  = Ok (Fin (fold_left Qplus l q)).
Proof.
  revert q. induction l as [|x l IH]; intro q; [reflexivity|].
  simpl. apply IH.
Qed.

Lemma avg_duration_of_stats_for (l : list attempt_record) :
  l <> [] ->
  avg_duration_of (stats_for l) = Ok (Fin (mean (map a_duration l))).
Proof.
  intro Hl. unfold avg_duration_of, stats_for. cbn [durations].
  destruct l as [|a l]; [congruence|].
  cbn [map].
  change (VNum (Fin (a_duration a)) :: map (fun a0 => VNum (Fin (a_duration a0))) l)
    with (map (fun a0 => VNum (Fin (a_duration a0))) (a :: l)).
  rewrite <- (map_map a_duration (fun d => VNum (Fin d))).
  unfold py_sum. rewrite py_sum_fin_from. cbn [bind]. unfold mean.
  cbn [map length]. rewrite !length_map. reflexivity.
Qed.

Lemma attempts_of_nonempty (m : string) (scope : list attempt_record) :
  In m (models_of scope) -> attempts_of m scope <> [].
Proof.
  unfold models_of. rewrite first_seen_In, in_map_iff.
  intros (a & <- & Ha) E.
  assert (H : In a (attempts_of (a_model a) scope)).
  { apply filter_In. split; [assumption|apply String.eqb_refl]. }
  rewrite E in H. destruct H.
Qed.

(** ** The winner of a scope *)

Lemma od_get_map (V : Type) (g : string -> V) (names : list string) (m : string) :
  In m names ->
  od_get (KStr m) (map (fun k => (KStr k, g k)) names) = Some (g m).
Proof.
  induction names as [|k names IH]; intro H; [destruct H|].
  simpl. destruct (String.eqb k m) eqn:E.
  - apply String.eqb_eq in E. now subst.
  - apply IH. destruct H as [->|H]; [|assumption].
    rewrite String.eqb_refl in E. discriminate.
Qed.

Lemma avg_brier_group (scope : list attempt_record) (m : string) :
  In m (models_of scope) ->
  avg_brier (stats_for (attempts_of m scope)) = Fin (mean_score m scope).
Proof.
  intro H. apply avg_brier_stats_for. now apply attempts_of_nonempty.
Qed.

Lemma models_of_nil (scope : list attempt_record) :
  models_of scope = [] -> scope = [].
Proof.
  destruct scope as [|a scope]; [reflexivity|]. intro H.
  assert (Hin : In (a_model a) (models_of (a :: scope))).
  { unfold models_of. apply first_seen_In. now left. }
  rewrite H in Hin. destruct Hin.
Qed.

Lemma winner_entry_reports (scope : list attempt_record) :
  exists ow, winner_entry (overall_form scope) = Ok ow /\ reports scope ow.
Proof.
  destruct (select_winner_selects (overall_form scope))
    as (best & low & Hsel & Hs).
  unfold winner_entry. rewrite Hsel. cbn [bind fst snd].
  unfold overall_form, grouped in *. fold (attempts_of) in *.
  change (first_seen (map a_model scope)) with (models_of scope) in *.
  set (F := fun k => (KStr k, stats_for (filter (fun a => String.eqb (a_model a) k) scope))) in *.
  destruct best as [k|].
  - destruct Hs as (pre & st & post & Hsplit & Havg & Hfin & _ & Hpre & Hpost).
    apply map_eq_app in Hsplit.
    destruct Hsplit as (npre & nrest & Hnames & <- & Hrest).
    apply map_eq_cons in Hrest.
    destruct Hrest as (m & npost & -> & Hm & <-).
    unfold F in Hm. injection Hm as <- <-.
    assert (Hin : forall m', In m' (npre ++ m :: npost) -> In m' (models_of scope))
      by (intros m' H'; now rewrite Hnames).
    assert (Hw : is_winner scope m).
    { exists npre, npost. split; [assumption|]. split.
      - intros m' Hm'. rewrite Forall_forall in Hpre.
        specialize (Hpre (F m') (in_map F _ _ Hm')). simpl in Hpre.
        rewrite <- Havg in Hpre.
        fold (attempts_of m scope) (attempts_of m' scope) in Hpre.
        rewrite !avg_brier_group in Hpre
          by (apply Hin, in_or_app; simpl; auto).
        now apply num_lt_fin.
      - intros m' Hm'. rewrite Forall_forall in Hpost.
        specialize (Hpost (F m') (in_map F _ _ Hm')). simpl in Hpost.
        rewrite <- Havg in Hpost.
        fold (attempts_of m scope) (attempts_of m' scope) in Hpost.
        rewrite !avg_brier_group in Hpost
          by (apply Hin, in_or_app; simpl; auto).
        now apply num_le_fin. }
    assert (Hmin : In m (models_of scope))
      by (apply Hin, in_or_app; simpl; auto).
    simpl key_truthy. destruct (String.eqb m "") eqn:E; simpl negb; cbv iota.
    + apply String.eqb_eq in E. subst m.
      exists None. split; [reflexivity|]. now right.
    + assert (Hget : od_get (KStr m) (map F (models_of scope))
                     = Some (stats_for (attempts_of m scope)))
        by (apply (od_get_map (fun k => stats_for (attempts_of k scope)));
            assumption).
      rewrite Hget.
      rewrite accuracy_of_stats_for by now apply attempts_of_nonempty.
      cbn [bind].
      rewrite avg_duration_of_stats_for by now apply attempts_of_nonempty.
      cbn [bind].
      eexists. split; [reflexivity|]. simpl.
      exists m. split; [|split; [assumption|]].
      * intro. subst. discriminate.
      * rewrite <- Havg. fold (attempts_of m scope).
        rewrite avg_brier_group by assumption. reflexivity.
  - destruct Hs as [-> Hall].
    exists None. split; [reflexivity|]. left.
    apply models_of_nil.
    destruct (models_of scope) as [|m names] eqn:Hm; [reflexivity|].
    exfalso. inversion Hall as [|? ? Hinf _]. simpl in Hinf.
    fold (attempts_of m scope) in Hinf.
    rewrite avg_brier_group in Hinf; [discriminate|].
    rewrite Hm. now left.
Qed.

(** ** The order on strings *)

Lemma ascii_compare_refl (c : ascii) : Ascii.compare c c = Eq.
Proof. unfold Ascii.compare. apply N.compare_refl. Qed.

Lemma ascii_compare_lt_trans (x y z : ascii) :
  Ascii.compare x y = Lt -> Ascii.compare y z = Lt -> Ascii.compare x z = Lt.
Proof.
  unfold Ascii.compare. rewrite !N.compare_lt_iff. apply N.lt_trans.
Qed.

Lemma string_compare_lt_trans (a : string) :
  forall b c : string,
    String.compare a b = Lt -> String.compare b c = Lt ->
    String.compare a c = Lt.
Proof.
  induction a as [|x a IH]; intros [|y b] [|z c]; simpl;
    try discriminate; auto.
  destruct (Ascii.compare x y) eqn:E1; try discriminate;
    destruct (Ascii.compare y z) eqn:E2; try discriminate; intros H1 H2.
  - apply Ascii.compare_eq_iff in E1, E2. subst.
    rewrite ascii_compare_refl. now apply IH with b.
  - apply Ascii.compare_eq_iff in E1. subst. now rewrite E2.
  - apply Ascii.compare_eq_iff in E2. subst. now rewrite E1.
  - now rewrite (ascii_compare_lt_trans _ _ _ E1 E2).
Qed.

Lemma str_lt_trans (a b c : string) : str_lt a b -> str_lt b c -> str_lt a c.
Proof.
  unfold str_lt, String.ltb.
  destruct (String.compare a b) eqn:E1; try discriminate.
  destruct (String.compare b c) eqn:E2; try discriminate.
  now rewrite (string_compare_lt_trans _ _ _ E1 E2).
Qed.

Lemma str_lt_irrefl (a : string) : ~ str_lt a a.
Proof.
  unfold str_lt, String.ltb. intro H.
  assert (E : String.compare a a = CompOpp (String.compare a a))
    by apply String.compare_antisym.
  destruct (String.compare a a); discriminate.
Qed.

Lemma str_lt_total (a b : string) : str_lt a b \/ a = b \/ str_lt b a.
Proof.
  unfold str_lt, String.ltb. rewrite (String.compare_antisym b a).
  destruct (String.compare a b) eqn:E; simpl; auto.
  apply String.compare_eq_iff in E. auto.
Qed.

(** ** Sorting the model identifiers *)

Lemma insert_name_In (x y : string) (l : list string) :
  In y (insert_name x l) <-> y = x \/ In y l.
Proof.
  induction l as [|z l IH]; simpl.
  - intuition.
  - destruct (String.ltb x z); simpl; [intuition|].
    rewrite IH. intuition.
Qed.

Lemma sort_names_In (y : string) (l : list string) :
  In y (sort_names l) <-> In y l.
Proof.
  induction l as [|x l IH]; simpl; [reflexivity|].
  rewrite insert_name_In, IH. intuition.
Qed.

Lemma insert_name_perm (x : string) (l : list string) :
  Permutation (x :: l) (insert_name x l).
Proof.
  induction l as [|z l IH]; simpl; [apply Permutation_refl|].
  destruct (String.ltb x z); [apply Permutation_refl|].
  apply perm_trans with (z :: x :: l); [apply perm_swap|].
  now apply perm_skip.
Qed.

Lemma sort_names_perm (l : list string) : Permutation l (sort_names l).
Proof.
  induction l as [|x l IH]; simpl; [constructor|].
  apply perm_trans with (x :: sort_names l).
  - now apply perm_skip.
  - apply insert_name_perm.
Qed.

Lemma insert_name_sorted (x : string) (l : list string) :
  StronglySorted str_lt l -> ~ In x l ->
  StronglySorted str_lt (insert_name x l).
Proof.
  induction l as [|y l IH]; intros Hs Hx; simpl.
  - constructor; constructor.
  - inversion Hs as [|? ? Hs' Hall]; subst.
    destruct (String.ltb x y) eqn:E.
    + constructor; [assumption|]. constructor; [exact E|].
      eapply Forall_impl; [|exact Hall]. intros z Hz.
      now apply str_lt_trans with y.
    + constructor.
      * apply IH; [assumption|]. intro. apply Hx. now right.
      * apply Forall_forall. intros z Hz. apply insert_name_In in Hz.
        destruct Hz as [->|Hz].
        -- destruct (str_lt_total x y) as [H|[->|H]]; [|..].
           ++ unfold str_lt in H. congruence.
           ++ exfalso. apply Hx. now left.
           ++ assumption.
        -- rewrite Forall_forall in Hall. now apply Hall.
Qed.

Lemma sort_names_sorted (l : list string) :
  NoDup l -> StronglySorted str_lt (sort_names l).
Proof.
  induction l as [|x l IH]; intro Hnd; simpl; [constructor|].
  inversion Hnd; subst.
  apply insert_name_sorted; [now apply IH|].
  now rewrite sort_names_In.
Qed.

(** A strictly increasing list is determined by its elements. *)
Lemma sorted_unique (l1 : list string) :
  forall l2 : list string,
    StronglySorted str_lt l1 -> StronglySorted str_lt l2 ->
    (forall x, In x l1 <-> In x l2) -> l1 = l2.
Proof.
  induction l1 as [|a l1 IH]; intros [|b l2] H1 H2 Hin.
  - reflexivity.
  - exfalso. apply (Hin b). now left.
  - exfalso. apply (Hin a). now left.
  - inversion H1 as [|? ? H1' Ha]; inversion H2 as [|? ? H2' Hb]; subst.
    rewrite Forall_forall in Ha, Hb.
    assert (Hab : a = b).
    { destruct (proj1 (Hin a) (or_introl eq_refl)) as [E|E]; [now symmetry|].
      destruct (proj2 (Hin b) (or_introl eq_refl)) as [E'|E']; [assumption|].
      exfalso. apply (str_lt_irrefl (a := a)).
      apply str_lt_trans with b; [now apply Ha|now apply Hb]. }
    subst b. f_equal. apply IH; try assumption.
    intro x. split; intro Hx.
    + destruct (proj1 (Hin x) (or_intror Hx)) as [<-|]; [|assumption].
      exfalso. apply (str_lt_irrefl (a := a)). now apply Ha.
    + destruct (proj2 (Hin x) (or_intror Hx)) as [<-|]; [|assumption].
      exfalso. apply (str_lt_irrefl (a := a)). now apply Hb.
Qed.

(** ** Sorting the items of a dictionary with string keys *)

Section SortedItems.
Variable g : string -> stats.
Let F := fun k : string => (KStr k, g k).

Lemma insert_sorted_names (x : string) (l : list string) :
  ~ In x l ->
  insert_sorted (F x) (map F l) = Ok (map F (insert_name x l)).
Proof.
  induction l as [|y l IH]; intro Hx; [reflexivity|].
  cbn [map insert_sorted insert_name]. unfold item_lt. cbn [F fst key_eqb key_lt].
  destruct (String.eqb x y) eqn:E.
  - apply String.eqb_eq in E. subst. exfalso. apply Hx. now left.
  - cbn [bind]. destruct (String.ltb x y); [reflexivity|].
    fold (F x). rewrite IH by (intro; apply Hx; now right). reflexivity.
Qed.

Lemma sorted_names (l : list string) :
  NoDup l -> sorted (map F l) = Ok (map F (sort_names l)).
Proof.
  induction l as [|x l IH]; intro Hnd; [reflexivity|].
  inversion Hnd; subst. cbn [map sorted sort_names].
  rewrite IH by assumption. cbn [bind].
  apply insert_sorted_names. now rewrite sort_names_In.
Qed.

End SortedItems.

(** ** The table *)

Lemma table_row_group (recs : list attempt_record) (m : string) :
  In m (models_of recs) ->
  table_row (KStr m, stats_for (attempts_of m recs)) = Ok (row_of recs m).
Proof.
  intro H. pose proof (attempts_of_nonempty _ _ H) as Hne.
  unfold table_row. cbn [fst snd].
  rewrite avg_brier_of_ok, avg_brier_group by assumption. cbn [bind].
  rewrite avg_duration_of_stats_for by assumption. cbn [bind].
  rewrite accuracy_of_stats_for by assumption. cbn [bind].
  reflexivity.
Qed.

Lemma mapM_table_rows (recs : list attempt_record) (names : list string) :
  (forall m, In m names -> In m (models_of recs)) ->
  mapM table_row
       (map (fun k => (KStr k, stats_for (attempts_of k recs))) names)
  = Ok (map (row_of recs) names).
Proof.
  induction names as [|m names IH]; intro H; [reflexivity|].
  cbn [map mapM]. rewrite table_row_group by (apply H; now left).
  cbn [bind]. rewrite IH by (intros; apply H; now right). reflexivity.
Qed.

Lemma table_data_of_form (recs : list attempt_record) :
  table_data_of (overall_form recs) = Ok (table_form recs).
Proof.
  unfold table_data_of, overall_form, grouped.
  change (first_seen (map a_model recs)) with (models_of recs).
  rewrite (sorted_names (fun k => stats_for (attempts_of k recs)))
    by apply first_seen_NoDup.
  cbn [bind]. apply mapM_table_rows.
  intro m. now rewrite sort_names_In.
Qed.

(** ** The per-category winners *)

Lemma od_set_absent (V : Type) (k : hkey) (v : V) (d : list (hkey * V)) :
  Forall (fun kv => key_eqb (fst kv) k = false) d ->
  od_set k v d = d ++ [(k, v)].
Proof.
  induction 1 as [|[k' v'] d Hk _ IH]; [reflexivity|].
  simpl in *. rewrite Hk. now f_equal.
Qed.

Lemma per_category_fold (g : string -> model_stats) (cats : list string) :
  forall (acc : list (hkey * winner)) (seen : list string),
    NoDup (seen ++ cats) ->
    (forall c, In c cats -> exists ow, winner_entry (g c) = Ok ow) ->
    Forall (fun kw => exists c, fst kw = KStr c /\ In c seen) acc ->
    foldM (fun (acc : list (hkey * winner)) (item : hkey * model_stats) =>
             w <- winner_entry (snd item) ;;
             match w with
             | Some e => Ok (od_set (fst item) e acc)
             | None => Ok acc
             end)
          (map (fun c => (KStr c, g c)) cats) acc
    = Ok (acc ++ flat_map (category_entries g) cats).
Proof.
  induction cats as [|c cats IH]; intros acc seen Hnd Hok Hacc.
  - simpl. now rewrite app_nil_r.
  - cbn [map foldM fst snd flat_map].
    destruct (Hok c (or_introl eq_refl)) as [ow How].
    unfold category_entries at 1. rewrite How. cbn [bind].
    assert (Hnd' : NoDup ((seen ++ [c]) ++ cats))
      by now rewrite <- app_assoc.
    assert (Hok' : forall c', In c' cats -> exists ow, winner_entry (g c') = Ok ow)
      by (intros; apply Hok; now right).
    assert (Hseen : Forall (fun kw => exists c0, fst kw = KStr c0 /\ In c0 (seen ++ [c])) acc).
    { eapply Forall_impl; [|exact Hacc]. intros kw (c0 & E & Hin).
      exists c0. split; [assumption|]. apply in_or_app. now left. }
    destruct ow as [w|].
    + rewrite od_set_absent.
      * cbn [bind]. rewrite (IH _ (seen ++ [c]) Hnd' Hok').
        -- now rewrite <- app_assoc.
        -- apply Forall_app. split; [assumption|].
           constructor; [|constructor]. exists c. split; [reflexivity|].
           apply in_or_app. right. now left.
      * eapply Forall_impl; [|exact Hacc]. intros kw (c0 & E & Hin).
        rewrite E. simpl. apply String.eqb_neq. intros ->.
        apply NoDup_remove_2 in Hnd. apply Hnd.
        apply in_or_app. now left.
    + cbn [bind]. now rewrite (IH _ (seen ++ [c]) Hnd' Hok' Hseen).
Qed.

Lemma od_get_category_entries (g : string -> model_stats)
  (cats : list string) (c : string) :
  od_get (KStr c) (flat_map (category_entries g) cats) =
  if existsb (String.eqb c) cats
  then match winner_entry (g c) with
       | Ok (Some w) => Some w
       | _ => None
       end
  else None.
Proof.
  induction cats as [|c' cats IH]; [reflexivity|].
  cbn [flat_map existsb].
  destruct (String.eqb c c') eqn:E.
  - apply String.eqb_eq in E. subst c'. cbn [orb].
    unfold category_entries at 1.
    destruct (winner_entry (g c)) as [[w|]|e] eqn:Hw; cbn [app].
    + simpl. now rewrite String.eqb_refl.
    + rewrite IH. now destruct (existsb (String.eqb c) cats).
    + rewrite IH. now destruct (existsb (String.eqb c) cats).
  - cbn [orb]. unfold category_entries at 1.
    destruct (winner_entry (g c')) as [[w|]|e]; cbn [app]; try exact IH.
    simpl. rewrite String.eqb_sym, E. exact IH.
Qed.

Lemma per_category_of_form (recs : list attempt_record) :
  per_category_of (category_form recs) = Ok (per_category_form recs).
Proof.
  unfold per_category_of, category_form, grouped, per_category_form.
  change (first_seen (map a_category recs)) with (categories_of recs).
  apply per_category_fold with (seen := []).
  - apply first_seen_NoDup.
  - intros c _. destruct (winner_entry_reports (in_category c recs)) as (ow & H & _).
    now exists ow.
  - constructor.
Qed.

Lemma per_category_form_reports (recs : list attempt_record) (c : string) :
  In c (categories_of recs) ->
  reports (in_category c recs) (od_get (KStr c) (per_category_form recs)).
Proof.
  intro Hc. unfold per_category_form. rewrite od_get_category_entries.
  apply existsb_eqb_In in Hc. rewrite Hc.
  destruct (winner_entry_reports (in_category c recs)) as (ow & H & Hr).
  rewrite H. now destruct ow.
Qed.

Lemma per_category_form_absent (recs : list attempt_record) (c : string) :
  ~ In c (categories_of recs) ->
  od_get (KStr c) (per_category_form recs) = None.
Proof.
  intro Hc. unfold per_category_form. rewrite od_get_category_entries.
  destruct (existsb (String.eqb c) (categories_of recs)) eqn:E; [|reflexivity].
  apply existsb_eqb_In in E. contradiction.
Qed.

(** ** The whole summary of a log of Attempt Records *)

Lemma summarize_normalized (results : list pyval)
  (recs : list attempt_record) :
  normalized results recs ->
  exists ow,
    winner_entry (overall_form recs) = Ok ow
    /\ summarize results
       = Ok (mk_summary (per_category_form recs) ow (table_form recs)).
Proof.
  intro H. destruct (winner_entry_reports recs) as (ow & How & _).
  exists ow. split; [assumption|].
  unfold summarize. rewrite (aggregate_normalized H). cbn [bind fst snd].
  rewrite per_category_of_form. cbn [bind].
  rewrite How. cbn [bind].
  rewrite table_data_of_form. reflexivity.
Qed.

(** ** Every attempt is counted once *)

Lemma fold_add_from (l : list Z) (a : Z) :
  fold_left Z.add l a = (a + fold_left Z.add l 0)%Z.
Proof.
  revert a. induction l as [|x l IH]; intro a; simpl; [lia|].
  rewrite (IH (a + x)%Z), (IH x). lia.
Qed.

Lemma Zsum_cons (x : Z) (l : list Z) : Zsum (x :: l) = (x + Zsum l)%Z.
Proof. unfold Zsum. simpl. apply fold_add_from. Qed.

Lemma total_attempts_upd (k : hkey) (f : stats -> stats) (d : model_stats) :
  (forall s, total_count (f s) = (total_count s + 1)%Z) ->
  total_attempts (od_upd k new_stats f d) = (total_attempts d + 1)%Z.
Proof.
  intro Hf. unfold total_attempts.
  induction d as [|[k' s] d IH]; cbn [od_upd map snd].
  - rewrite Zsum_cons, Hf. reflexivity.
  - destruct (key_eqb k' k); cbn [map snd]; rewrite !Zsum_cons.
    + rewrite Hf. lia.
    + rewrite IH. lia.
Qed.

Lemma total_by_category_upd (c m : hkey) (f : stats -> stats)
  (d : category_stats) :
  (forall s, total_count (f s) = (total_count s + 1)%Z) ->
  total_attempts_by_category (od_upd c [] (od_upd m new_stats f) d)
  = (total_attempts_by_category d + 1)%Z.
Proof.
  intro Hf. unfold total_attempts_by_category.
  induction d as [|[c' inner] d IH]; cbn [od_upd map snd].
  - unfold total_attempts. cbn [map snd]. rewrite !Zsum_cons, Hf.
    reflexivity.
  - destruct (key_eqb c' c); cbn [map snd]; rewrite !Zsum_cons.
    + rewrite total_attempts_upd by exact Hf. lia.
    + rewrite IH. lia.
Qed.

Lemma attempt_update_total (a : attempt_record) (s : stats) :
  total_count (attempt_update a s) = (total_count s + 1)%Z.
Proof. reflexivity. Qed.

Lemma totals_of_forms (recs : list attempt_record) :
  total_attempts (overall_form recs) = Z.of_nat (length recs)
  /\ total_attempts_by_category (category_form recs) = Z.of_nat (length recs).
Proof.
  induction recs as [|a recs [IH1 IH2]] using rev_ind; [split; reflexivity|].
  rewrite overall_form_snoc, category_form_snoc.
  rewrite total_attempts_upd by apply attempt_update_total.
  rewrite total_by_category_upd by apply attempt_update_total.
  rewrite IH1, IH2, length_app. simpl. split; lia.
Qed.

Lemma table_form_models (recs : list attempt_record) :
  map r_model (table_form recs) = map KStr (sort_names (models_of recs)).
Proof. unfold table_form. rewrite map_map. reflexivity. Qed.

Lemma sorted_models_elements (recs : list attempt_record) (m : string) :
  In m (sort_names (models_of recs)) <-> In m (map a_model recs).
Proof. rewrite sort_names_In. apply first_seen_In. Qed.

Lemma sorted_models_NoDup (recs : list attempt_record) :
  NoDup (sort_names (models_of recs)).
Proof.
  apply (Permutation_NoDup (sort_names_perm (models_of recs))).
  apply first_seen_NoDup.
Qed.

Lemma sorted_models_perm (recs recs' : list attempt_record) :
  Permutation recs recs' ->
  sort_names (models_of recs') = sort_names (models_of recs).
Proof.
  intro Hp. apply sorted_unique.
  - apply sort_names_sorted, first_seen_NoDup.
  - apply sort_names_sorted, first_seen_NoDup.
  - intro m. rewrite !sorted_models_elements.
    pose proof (Permutation_map a_model Hp) as Hm.
    split; intro H.
    + apply Permutation_in with (map a_model recs'); [now symmetry|assumption].
    + now apply Permutation_in with (map a_model recs).
Qed.


(** C3: on a log of Attempt Records the aggregation loop puts every
    record in the group of its own (category, model) pair and in the
    group of its own model, so that the attempts counted over all groups
    are the records of the log, once each; the table has one row per
    distinct model, in strictly increasing order of identifier whatever
    the order of the records, and in every row correct plus incorrect
    predictions is the number of attempts of the model. *)
Theorem C3_groups_and_table
  (results : list pyval) (recs : list attempt_record) :
  normalized results recs ->
  aggregate results = Ok (category_form recs, overall_form recs)
  /\ total_attempts (overall_form recs) = Z.of_nat (length recs)
  /\ total_attempts_by_category (category_form recs) = Z.of_nat (length recs)
  /\ exists (s : summary) (names : list string),
       summarize results = Ok s
       /\ map r_model (model_performance_summary s) = map KStr names
       /\ NoDup names
       /\ (forall m, In m names <-> In m (map a_model recs))
       /\ StronglySorted str_lt names
       /\ (forall results' recs' s',
              normalized results' recs' -> Permutation recs recs' ->
              summarize results' = Ok s' ->
              map r_model (model_performance_summary s')
              = map r_model (model_performance_summary s))
       /\ Forall (fun r =>
                    exists m, r_model r = KStr m
                      /\ (correct_predictions r + incorrect_predictions r)%Z
                         = Z.of_nat (length (attempts_of m recs)))
                 (model_performance_summary s).
Proof.
  intro H.
  split; [now apply aggregate_normalized|].
  split; [apply totals_of_forms|]. split; [apply totals_of_forms|].
  destruct (summarize_normalized H) as (ow & _ & Hsum).
  exists (mk_summary (per_category_form recs) ow (table_form recs)),
         (sort_names (models_of recs)).
  cbn [model_performance_summary].
  split; [exact Hsum|].
  split; [apply table_form_models|].
  split; [apply sorted_models_NoDup|].
  split; [apply sorted_models_elements|].
  split; [apply sort_names_sorted, first_seen_NoDup|].
  split.
  - intros results' recs' s' H' Hp Hs'.
    destruct (summarize_normalized H') as (ow' & _ & Hsum').
    rewrite Hsum' in Hs'. injection Hs' as <-.
    cbn [model_performance_summary].
    rewrite !table_form_models. f_equal. now apply sorted_models_perm.
  - unfold table_form. apply Forall_forall. intros r Hr.
    apply in_map_iff in Hr. destruct Hr as (m & <- & _).
    exists m. split; [reflexivity|]. simpl. lia.
Qed.

(** ** No division by zero *)

Lemma no_zde_ok (A : Type) (a : A) : no_zde (Ok a).
Proof. discriminate. Qed.

Lemma no_zde_bind (A B : Type) (c : result A) (k : A -> result B) :
  no_zde c -> (forall a, no_zde (k a)) -> no_zde (bind c k).
Proof.
  unfold no_zde. intros Hc Hk. destruct c as [a|e]; simpl; [apply Hk|].
  congruence.
Qed.

Lemma no_zde_foldM (A S : Type) (f : S -> A -> result S) (l : list A) :
  (forall s a, no_zde (f s a)) -> forall s, no_zde (foldM f l s).
Proof.
  intro Hf. induction l as [|x l IH]; intro s; simpl.
  - apply no_zde_ok.
  - apply no_zde_bind; [apply Hf|apply IH].
Qed.

Lemma no_zde_mapM (A B : Type) (f : A -> result B) (l : list A) :
  (forall a, no_zde (f a)) -> no_zde (mapM f l).
Proof.
  intro Hf. induction l as [|x l IH]; simpl.
  - apply no_zde_ok.
  - apply no_zde_bind; [apply Hf|]. intro y.
    apply no_zde_bind; [apply IH|]. intro ys. apply no_zde_ok.
Qed.

Ltac no_zde_cases :=
  repeat (first
    [ apply no_zde_ok
    | discriminate
    | apply no_zde_bind; [|intro]
    | match goal with
      | |- no_zde (match ?x with _ => _ end) => destruct x
      | |- no_zde (if ?x then _ else _) => destruct x
      | |- no_zde (Raise _) => unfold no_zde
      end ]).

Lemma no_zde_getitem (r : pyval) (k : string) : no_zde (getitem r k).
Proof. unfold getitem. no_zde_cases. Qed.

Lemma no_zde_dict_get (r : pyval) (k : string) (v : pyval) :
  no_zde (dict_get r k v).
Proof. unfold dict_get. no_zde_cases. Qed.

Lemma no_zde_as_num (v : pyval) : no_zde (as_num v).
Proof. unfold as_num. no_zde_cases. Qed.

Lemma no_zde_hash_key (v : pyval) : no_zde (hash_key v).
Proof. unfold hash_key. no_zde_cases. Qed.

Lemma no_zde_process_record (st : agg) (r : pyval) :
  no_zde (process_record st r).
Proof.
  unfold process_record, brier_score_of.
  repeat (apply no_zde_bind; [|intro]);
    auto using no_zde_getitem, no_zde_dict_get, no_zde_as_num,
               no_zde_hash_key, no_zde_ok.
Qed.

Lemma no_zde_accuracy_of (s : stats) : no_zde (accuracy_of s).
Proof.
  unfold accuracy_of, truediv_int.
  destruct (total_count s >? 0)%Z eqn:E; [|apply no_zde_ok].
  destruct (total_count s =? 0)%Z eqn:E'; [|apply no_zde_ok].
  apply Z.eqb_eq in E'. rewrite E' in E. discriminate.
Qed.

Lemma no_zde_py_sum (l : list pyval) : no_zde (py_sum l).
Proof.
  unfold py_sum. apply no_zde_foldM. intros s v.
  apply no_zde_bind; [apply no_zde_as_num|]. intro. apply no_zde_ok.
Qed.

Lemma no_zde_avg_duration_of (s : stats) : no_zde (avg_duration_of s).
Proof.
  unfold avg_duration_of. destruct (durations s) as [|v l]; [apply no_zde_ok|].
  apply no_zde_bind; [apply no_zde_py_sum|]. intro t. apply no_zde_ok.
Qed.

Lemma no_zde_winner_entry (items : model_stats) : no_zde (winner_entry items).
Proof.
  unfold winner_entry.
  destruct (select_winner_selects items) as (best & low & -> & _).
  cbn [bind fst snd]. destruct best as [m|]; [|apply no_zde_ok].
  destruct (key_truthy m); [|apply no_zde_ok].
  apply no_zde_bind; [apply no_zde_accuracy_of|]. intro.
  apply no_zde_bind; [apply no_zde_avg_duration_of|]. intro.
  apply no_zde_ok.
Qed.

Lemma no_zde_per_category_of (cms : category_stats) :
  no_zde (per_category_of cms).
Proof.
  unfold per_category_of. apply no_zde_foldM. intros acc item.
  apply no_zde_bind; [apply no_zde_winner_entry|].
  intros [w|]; apply no_zde_ok.
Qed.

Lemma no_zde_item_lt (a b : hkey * stats) : no_zde (item_lt a b).
Proof.
  unfold item_lt, key_lt.
  destruct (key_eqb (fst a) (fst b)); [discriminate|].
  destruct (fst a), (fst b); simpl; discriminate.
Qed.

Lemma no_zde_insert_sorted (x : hkey * stats) (l : model_stats) :
  no_zde (insert_sorted x l).
Proof.
  induction l as [|y l IH]; simpl; [apply no_zde_ok|].
  apply no_zde_bind; [apply no_zde_item_lt|].
  intros [|]; [apply no_zde_ok|].
  apply no_zde_bind; [apply IH|]. intro. apply no_zde_ok.
Qed.

Lemma no_zde_sorted (items : model_stats) : no_zde (sorted items).
Proof.
  induction items as [|x items IH]; simpl; [apply no_zde_ok|].
  apply no_zde_bind; [apply IH|]. intro. apply no_zde_insert_sorted.
Qed.

Lemma no_zde_table_row (item : hkey * stats) : no_zde (table_row item).
Proof.
  unfold table_row. rewrite avg_brier_of_ok. cbn [bind].
  apply no_zde_bind; [apply no_zde_avg_duration_of|]. intro.
  apply no_zde_bind; [apply no_zde_accuracy_of|]. intro.
  apply no_zde_ok.
Qed.

(** Whatever the decoded lines are, steps 1 to 4 never divide by zero. *)
Lemma no_zde_summarize (results : list pyval) : no_zde (summarize results).
Proof.
  unfold summarize, aggregate, table_data_of.
  apply no_zde_bind; [apply no_zde_foldM, no_zde_process_record|]. intro st.
  apply no_zde_bind; [apply no_zde_per_category_of|]. intro pc.
  apply no_zde_bind; [apply no_zde_winner_entry|]. intro ow.
  apply no_zde_bind.
  - apply no_zde_bind; [apply no_zde_sorted|]. intro.
    apply no_zde_mapM, no_zde_table_row.
  - intro. apply no_zde_ok.
Qed.

(** ** Decoded lines that are not records *)

(** Whether the loop body raises on a decoded line does not depend on
    the statistics gathered so far. *)
Lemma process_record_raise_any_state (st st' : agg) (r : pyval) (e : exn) :
  process_record st r = Raise e -> process_record st' r = Raise e.
Proof.
  unfold process_record.
  destruct (getitem r "model"); cbn [bind]; [|trivial].
  destruct (getitem r "category"); cbn [bind]; [|trivial].
  destruct (dict_get r "intent" (VStr "unknown")); cbn [bind]; [|trivial].
  destruct (dict_get r "confidence" (VNum (Fin 0))); cbn [bind]; [|trivial].
  destruct (dict_get r "duration" (VNum (Fin 0))); cbn [bind]; [|trivial].
  destruct (brier_score_of _ _); cbn [bind]; [|trivial].
  destruct (hash_key a0); cbn [bind]; [|trivial].
  destruct (hash_key a); cbn [bind]; [|trivial].
  discriminate.
Qed.

Lemma aggregate_raises (results : list pyval) :
  Exists (fun r => exists e, process_record empty_agg r = Raise e) results ->
  forall st, exists e, foldM process_record results st = Raise e.
Proof.
  induction 1 as [r results [e He]|r results _ IH]; intro st; cbn [foldM].
  - exists e. rewrite (@process_record_raise_any_state empty_agg st r e He).
    reflexivity.
  - destruct (process_record st r) as [st'|e]; cbn [bind].
    + apply IH.
    + now exists e.
Qed.

Lemma summarize_raises (results : list pyval) :
  Exists (fun r => exists e, process_record empty_agg r = Raise e) results ->
  exists e, summarize results = Raise e.
Proof.
  intro H. destruct (@aggregate_raises results H empty_agg) as [e He].
  exists e. unfold summarize, aggregate. now rewrite He.
Qed.

Lemma missing_model_raises (d : list (hkey * pyval)) (st : agg) :
  od_get (KStr "model") d = None ->
  process_record st (VDict d) = Raise (KeyError "model").
Proof. intro H. unfold process_record, getitem. now rewrite H. Qed.

(** ** The run of the Aggregator *)

Section Runs.
Variable json_loads : string -> string + pyval.
Variable num_repr : num -> string.
Variable tabulate : list row -> string.

Lemma load_lines_first_failure (lines : list string) (bad : string) :
  In bad lines -> (exists msg, json_loads bad = inl msg) ->
  exists before line msg after,
    lines = before ++ line :: after
    /\ Forall (fun l => exists v, json_loads l = inr v) before
    /\ json_loads line = inl msg
    /\ load_lines json_loads lines = inl msg.
Proof.
  induction lines as [|l lines IH]; intros Hin Hbad; [destruct Hin|].
  destruct (json_loads l) as [msg|v] eqn:El.
  - exists [], l, msg, lines. simpl. rewrite El. auto.
  - destruct Hin as [->|Hin].
    + destruct Hbad as [msg Hmsg]. congruence.
    + destruct (IH Hin Hbad) as (before & line & msg & after & -> & Hb & Hl & Hload).
      exists (l :: before), line, msg, after. simpl. rewrite El, Hload.
      repeat split; auto. constructor; [now exists v|assumption].
Qed.

Lemma written_save_outputs (plotting : bool) (filepath : string) (s : summary) :
  written_json (save_outputs num_repr tabulate plotting filepath s)
  = [(summary_path filepath, json_encode num_repr (summary_value s))].
Proof.
  unfold save_outputs, create_plots, summary_path.
  destruct plotting; [|reflexivity].
  destruct (model_performance_summary s); reflexivity.
Qed.

(** A run that does not end with status 0 has written nothing. *)
Lemma failed_run_writes_nothing (plotting : bool) (filepath : string)
  (file : option (list string)) :
  let r := analyze_log_file json_loads num_repr tabulate plotting filepath file in
  exit_status (snd r) <> 0%Z ->
  written_paths (fst r) = [] /\ written_json (fst r) = [].
Proof.
  unfold analyze_log_file.
  destruct file as [lines|]; [|now split].
  destruct (load_lines json_loads lines) as [msg|[|r0 results]]; [now split|now split|].
  destruct (summarize (r0 :: results)); [|now split].
  simpl. intro H. now contradiction H.
Qed.


(** C5: on a log with no line the run prints that there is nothing to
    analyze and returns normally (status 0) without creating a directory
    or writing a file; and no run, whatever the log, ends in a division
    by zero. *)
Theorem C5_empty_log (PLOTTING_ENABLED : bool) (filepath : string) :
  analyze_log_file json_loads num_repr tabulate PLOTTING_ENABLED filepath
                   (Some [])
  = ([Print ("Analyzing log file: " ++ filepath);
      Print "Log file is empty. Nothing to analyze."],
     Returned)
  /\ exit_status Returned = 0%Z
  /\ (forall file,
        snd (analyze_log_file json_loads num_repr tabulate PLOTTING_ENABLED
                              filepath file)
        <> Uncaught ZeroDivisionError).
Proof.
  split; [reflexivity|]. split; [reflexivity|].
  intro file. unfold analyze_log_file.
  destruct file as [lines|]; [|discriminate].
  destruct (load_lines json_loads lines) as [msg|[|r0 results]];
    try discriminate.
  pose proof (no_zde_summarize (r0 :: results)) as H.
  destruct (summarize (r0 :: results)) as [s|e]; [discriminate|].
  simpl. intro E. apply H. congruence.
Qed.

End Runs.


(** ** Defaults *)

Lemma od_get_app (V : Type) (k : hkey) (d1 d2 : list (hkey * V)) :
  od_get k (d1 ++ d2) =
  match od_get k d1 with
  | Some v => Some v
  | None => od_get k d2
  end.
Proof.
  induction d1 as [|[k' v'] d1 IH]; [reflexivity|].
  simpl. destruct (key_eqb k' k); [reflexivity|apply IH].
Qed.

Lemma od_get_setdefault (k k0 : string) (v0 : pyval) (d : list (hkey * pyval)) :
  od_get (KStr k) (setdefault k0 v0 d) =
  if String.eqb k0 k
  then Some (match od_get (KStr k0) d with Some v => v | None => v0 end)
  else od_get (KStr k) d.
Proof.
  unfold setdefault.
  destruct (String.eqb k0 k) eqn:E.
  - apply String.eqb_eq in E. subst k0.
    destruct (od_get (KStr k) d) as [v|] eqn:Ed; [assumption|].
    rewrite od_get_app, Ed. simpl. now rewrite String.eqb_refl.
  - destruct (od_get (KStr k0) d) as [v|] eqn:Ed; [reflexivity|].
    rewrite od_get_app. simpl. rewrite E.
    now destruct (od_get (KStr k) d).
Qed.

Lemma dict_get_with_defaults (d : list (hkey * pyval)) :
  od_get (KStr "model") (with_defaults d) = od_get (KStr "model") d
  /\ od_get (KStr "category") (with_defaults d) = od_get (KStr "category") d
  /\ od_get (KStr "intent") (with_defaults d)
     = Some (match od_get (KStr "intent") d with
             | Some v => v
             | None => VStr "unknown"
             end)
  /\ od_get (KStr "confidence") (with_defaults d)
     = Some (match od_get (KStr "confidence") d with
             | Some v => v
             | None => VNum (Fin 0)
             end)
  /\ od_get (KStr "duration") (with_defaults d)
     = Some (match od_get (KStr "duration") d with
             | Some v => v
             | None => VNum (Fin 0)
             end).
Proof.
  unfold with_defaults. rewrite !od_get_setdefault. cbn [String.eqb Ascii.eqb Bool.eqb].
  repeat split.
Qed.

(** C6: a decoded record is processed exactly as the same record with
    "unknown" written in for an absent [intent] and 0.0 for an absent
    [confidence] or [duration]; on an Attempt Record the correctness and
    the calibration score recorded are those of the defaulted fields. *)
Theorem C6_documented_defaults (d : list (hkey * pyval)) (st : agg) :
  process_record st (VDict d) = process_record st (VDict (with_defaults d))
  /\ normalize (VDict d) = normalize (VDict (with_defaults d))
  /\ (forall a, normalize (VDict d) = Some a ->
        process_record st (VDict d) = Ok (step st a)
        /\ (od_get (KStr "intent") d = None -> a_predicted a = VStr "unknown")
        /\ (od_get (KStr "confidence") d = None -> a_confidence a = 0)
        /\ (od_get (KStr "duration") d = None -> a_duration a = 0)).
Proof.
  destruct (dict_get_with_defaults d) as (Hm & Hc & Hi & Hco & Hd).
  split; [|split].
  - unfold process_record, getitem, dict_get.
    rewrite Hm, Hc, Hi, Hco, Hd. reflexivity.
  - unfold normalize, numeric_field. rewrite Hm, Hc, Hi, Hco, Hd.
    destruct (od_get (KStr "confidence") d), (od_get (KStr "duration") d);
      reflexivity.
  - intros a Ha. split; [now apply process_record_normalized|].
    unfold normalize, numeric_field in Ha.
    destruct (od_get (KStr "model") d) as [[| | |m| |]|]; try discriminate.
    destruct (od_get (KStr "category") d) as [[| | |c| |]|]; try discriminate.
    destruct (od_get (KStr "confidence") d) as [[| |[q|]| | |]|];
      try discriminate;
      destruct (od_get (KStr "duration") d) as [[| |[q'|]| | |]|];
      try discriminate;
      injection Ha as <-; cbn [a_predicted a_confidence a_duration];
      repeat split; intros; try reflexivity; try discriminate;
      destruct (od_get (KStr "intent") d); congruence.
Qed.

(** C10: the loop body takes the confidence as it is. A wrong prediction
    with confidence 2 is an Attempt Record of the log; its calibration
    score is 4, and the summary of the log holding it reports a
    brier_score above 1. *)
Theorem C10_confidence_not_clamped :
  exists a : attempt_record,
    normalize overconfident_record = Some a
    /\ a_confidence a == 2
    /\ correct a = 0%Z
    /\ score a == 4
    /\ (forall st, process_record st overconfident_record = Ok (step st a))
    /\ exists s : summary,
         summarize [overconfident_record] = Ok s
         /\ Exists (fun r => num_lt (Fin 1) (r_brier_score r))
                   (model_performance_summary s)
         /\ (exists w, overall_winner s = Some w
                       /\ num_lt (Fin 1) (w_brier_score w)).
Proof.
  eexists. split; [reflexivity|].
  split; [reflexivity|]. split; [reflexivity|]. split; [reflexivity|].
  split; [intro st; now apply process_record_normalized|].
  eexists. split; [vm_compute; reflexivity|].
  split.
  - constructor. vm_compute. reflexivity.
  - eexists. split; [reflexivity|]. vm_compute. reflexivity.
Qed.

(** ** Writing the summary and reading it back *)

Section RoundTrip.
Variable num_repr : num -> string.

Local Abbreviation encode := (json_encode num_repr).

Lemma decode_encode_key (k : hkey) :
  json_decode (encode (key_val k)) = key_val k.
Proof. destruct k; reflexivity. Qed.

Lemma decode_encode_winner_best (w : winner) :
  json_decode (encode (winner_value "best_model" w))
  = winner_value "best_model" w.
Proof.
  unfold winner_value. cbn. rewrite decode_encode_key. reflexivity.
Qed.

Lemma decode_encode_winner_model (w : winner) :
  json_decode (encode (winner_value "model" w)) = winner_value "model" w.
Proof.
  unfold winner_value. cbn. rewrite decode_encode_key. reflexivity.
Qed.

Lemma decode_encode_row (r : row) :
  json_decode (encode (row_value r)) = row_value r.
Proof.
  unfold row_value. cbn. rewrite decode_encode_key. reflexivity.
Qed.

Lemma decode_encode_list (l : list pyval) :
  Forall (fun v => json_decode (encode v) = v) l ->
  json_decode (encode (VList l)) = VList l.
Proof.
  intro H. cbn. f_equal. rewrite map_map.
  induction H as [|v l Hv _ IH]; [reflexivity|].
  simpl. now rewrite Hv, IH.
Qed.

Lemma fold_od_set_fresh (l : list (string * pyval)) :
  forall acc : list (string * pyval),
    NoDup (map fst acc ++ map fst l) ->
    fold_left (fun acc kv => od_set (KStr (fst kv)) (snd kv) acc) l
              (map (@str_entry pyval) acc)
    = map (@str_entry pyval) (acc ++ l).
Proof.
  induction l as [|[k v] l IH]; intros acc Hnd.
  - now rewrite app_nil_r.
  - cbn [fold_left fst snd]. rewrite od_set_absent.
    + change [(KStr k, v)] with (map (@str_entry pyval) [(k, v)]).
      rewrite <- map_app, IH.
      * now rewrite <- app_assoc.
      * rewrite map_app. cbn [map fst]. now rewrite <- app_assoc.
    + apply Forall_forall. intros kv Hkv. apply in_map_iff in Hkv.
      destruct Hkv as ([k' v'] & <- & Hin). cbn.
      apply String.eqb_neq. intros ->.
      apply NoDup_remove_2 in Hnd. apply Hnd.
      apply in_or_app. left. apply in_map_iff. now exists (k, v').
Qed.

Lemma decode_encode_dict (l : list (string * pyval)) :
  NoDup (map fst l) ->
  Forall (fun p => json_decode (encode (snd p)) = snd p) l ->
  json_decode (encode (VDict (map (@str_entry pyval) l)))
  = VDict (map (@str_entry pyval) l).
Proof.
  intros Hnd Hv. cbn [json_encode json_decode]. f_equal.
  rewrite !map_map. cbn [str_entry fst snd json_key].
  assert (E : map (fun x : string * pyval => (fst x, json_decode (encode (snd x)))) l = l).
  { clear Hnd. induction Hv as [|[k v] l Hp _ IH]; [reflexivity|].
    simpl in *. now rewrite Hp, IH. }
  rewrite E.
  apply (fold_od_set_fresh l []). exact Hnd.
Qed.

(** The entries of [per_category] have distinct string keys. *)
Lemma category_entries_keys (g : string -> model_stats) (cats : list string) :
  NoDup cats ->
  exists l : list (string * winner),
    flat_map (category_entries g) cats = map (@str_entry winner) l
    /\ NoDup (map fst l)
    /\ (forall c, In c (map fst l) -> In c cats).
Proof.
  induction cats as [|c cats IH]; intro Hnd.
  - exists []. repeat split; [constructor|intros c []].
  - inversion Hnd as [|? ? Hc Hnd']; subst.
    destruct (IH Hnd') as (l & El & Hl & Hin).
    cbn [flat_map]. unfold category_entries at 1.
    destruct (winner_entry (g c)) as [[w|]|e].
    + exists ((c, w) :: l). cbn. rewrite El. repeat split.
      * constructor; [|assumption]. intro H. apply Hc. now apply Hin.
      * intros c' [<-|H]; [now left|right; now apply Hin].
    + exists l. repeat split; try assumption. intros; right; now apply Hin.
    + exists l. repeat split; try assumption. intros; right; now apply Hin.
Qed.

Lemma decode_encode_summary (s : summary) (l : list (string * winner)) :
  per_category s = map (@str_entry winner) l -> NoDup (map fst l) ->
  json_decode (encode (summary_value s)) = summary_value s.
Proof.
  intros Hpc Hnd. unfold summary_value.
  set (pc := VDict (map (fun kw => (fst kw, winner_value "best_model" (snd kw)))
                        (per_category s))).
  set (ow := match overall_winner s with
             | Some w => winner_value "model" w
             | None => VDict []
             end).
  set (td := VList (map row_value (model_performance_summary s))).
  assert (Hpc' : json_decode (encode pc) = pc).
  { unfold pc. rewrite Hpc, map_map. cbn [str_entry fst snd].
    change (map (fun x : string * winner => (KStr (fst x), winner_value "best_model" (snd x))) l)
      with (map (fun x : string * winner =>
                   str_entry (fst x, winner_value "best_model" (snd x))) l).
    rewrite <- (map_map (fun x : string * winner =>
                           (fst x, winner_value "best_model" (snd x)))
                        (@str_entry pyval)).
    apply decode_encode_dict.
    - now rewrite map_map.
    - apply Forall_forall. intros p Hp. apply in_map_iff in Hp.
      destruct Hp as (x & <- & _). apply decode_encode_winner_best. }
  assert (How : json_decode (encode ow) = ow).
  { unfold ow. destruct (overall_winner s); [|reflexivity].
    apply decode_encode_winner_model. }
  assert (Htd : json_decode (encode td) = td).
  { unfold td. apply decode_encode_list. apply Forall_forall.
    intros v Hv. apply in_map_iff in Hv. destruct Hv as (r & <- & _).
    apply decode_encode_row. }
  change (json_decode (encode
            (VDict (map (@str_entry pyval)
                        [("per_category"%string, pc);
                         ("overall_winner"%string, ow);
                         ("model_performance_summary"%string, td)])))
          = VDict (map (@str_entry pyval)
                        [("per_category"%string, pc);
                         ("overall_winner"%string, ow);
                         ("model_performance_summary"%string, td)])).
  apply decode_encode_dict.
  - repeat constructor; simpl; intuition discriminate.
  - repeat constructor; assumption.
Qed.

End RoundTrip.

(** C8: on a non-empty log of Attempt Records the run writes one JSON
    document, at the summary path, and reading that document back gives
    the summary dictionary itself: the same [per_category], the same
    [overall_winner], the same [model_performance_summary]. *)
Theorem C8_summary_round_trip
  (json_loads : string -> string + pyval) (num_repr : num -> string)
  (tabulate : list row -> string) (PLOTTING_ENABLED : bool)
  (filepath : string) (lines : list string)
  (results : list pyval) (recs : list attempt_record) :
  load_lines json_loads lines = inr results ->
  normalized results recs ->
  results <> [] ->
  exists (s : summary) (doc : json),
    summarize results = Ok s
    /\ written_json (fst (analyze_log_file json_loads num_repr tabulate
                            PLOTTING_ENABLED filepath (Some lines)))
       = [(summary_path filepath, doc)]
    /\ doc = json_encode num_repr (summary_value s)
    /\ json_decode doc = summary_value s
    /\ json_decode doc
       = VDict [(KStr "per_category",
                  VDict (map (fun kw => (fst kw,
                                         winner_value "best_model" (snd kw)))
                             (per_category s)));
                (KStr "overall_winner",
                  match overall_winner s with
                  | Some w => winner_value "model" w
                  | None => VDict []
                  end);
                (KStr "model_performance_summary",
                  VList (map row_value (model_performance_summary s)))].
Proof.
  intros Hload Hnorm Hne.
  destruct (summarize_normalized Hnorm) as (ow & _ & Hsum).
  eexists. eexists. split; [exact Hsum|].
  split; [|split; [reflexivity|]].
  - unfold analyze_log_file. rewrite Hload.
    destruct results as [|r0 results]; [congruence|].
    rewrite Hsum. cbn [fst app written_json].
    apply written_save_outputs.
  - assert (Hrt : json_decode (json_encode num_repr
                     (summary_value (mk_summary (per_category_form recs) ow
                                                (table_form recs))))
                  = summary_value (mk_summary (per_category_form recs) ow
                                              (table_form recs))).
    { destruct (category_entries_keys
                  (fun c => overall_form (in_category c recs))
                  (first_seen_NoDup (map a_category recs)))
        as (l & El & Hl & _).
      apply decode_encode_summary with l; [exact El|exact Hl]. }
    split; [exact Hrt|]. rewrite Hrt. reflexivity.
Qed.

(** ** The Producer's attempts *)

Section Attempts.
Variable json_loads : string -> string + pyval.
Variable float_of_str : string -> option num.
Variable str_strip : string -> string.
Variable post_generate : string -> string -> string + (pyval * num).
Variable system_prompt : string.

Local Abbreviation attempt_ :=
  (attempt json_loads float_of_str str_strip post_generate system_prompt).
Local Abbreviation query_loop_ :=
  (query_loop json_loads float_of_str str_strip post_generate system_prompt).

(** A failed or timed-out call: no record, and the loop goes on to the
    next query with the log unchanged. *)
Lemma failed_call_is_skipped (model category query e : string) :
  post_generate model (system_prompt ++ nl ++ "User: " ++ query) = inl e ->
  attempt_ model category query = Ok None
  /\ forall rest log,
       query_loop_ model category (query :: rest) log
       = query_loop_ model category rest log.
Proof.
  intro H.
  assert (E : attempt_ model category query = Ok None).
  { unfold attempt, run_intent_classification_http. now rewrite H. }
  split; [exact E|]. intros rest log. cbn [query_loop]. now rewrite E.
Qed.

(** A response text that is not JSON: a record with the label "error"
    and confidence 0.0 is appended, and the loop goes on. *)
Lemma undecodable_response_is_recorded
  (model category query text msg : string) (data : pyval) (duration : num) :
  post_generate model (system_prompt ++ nl ++ "User: " ++ query)
  = inr (data, duration) ->
  dict_get data "response" (VStr "") = Ok (VStr text) ->
  json_loads (str_strip text) = inl msg ->
  let record :=
    VDict [(KStr "model", VStr model);
           (KStr "category", VStr category);
           (KStr "query", VStr query);
           (KStr "intent", VStr "error");
           (KStr "confidence", VNum (Fin 0));
           (KStr "duration", VNum (py_round duration 2))] in
  attempt_ model category query = Ok (Some record)
  /\ forall rest log,
       query_loop_ model category (query :: rest) log
       = query_loop_ model category rest (log ++ [record]).
Proof.
  intros Hpost Hresp Hloads record.
  assert (E : attempt_ model category query = Ok (Some record)).
  { unfold attempt, run_intent_classification_http. rewrite Hpost, Hresp.
    cbn [bind fst snd]. unfold parse_response. rewrite Hloads. reflexivity. }
  split; [exact E|]. intros rest log. cbn [query_loop]. now rewrite E.
Qed.

End Attempts.

(** C9, at the failing input: the model answers with the JSON text
    [{"intent": "weather", "confidence": "high"}]. The text decodes, the
    conversion of "high" to a number raises ValueError, which the [try]
    block does not catch: the attempt raises, the loop stops at the first
    query, and the run ends with no record in the log. *)
Theorem C9_wrong_shape_response_stops_the_producer :
  let json_loads := loads_from [(wrong_shape_text, wrong_shape_value)] in
  let attempt0 :=
    attempt json_loads float_of_sample strip_sample answers_wrong_shape
            "Classify the intent." in
  let run :=
    run_benchmark json_loads float_of_sample strip_sample answers_wrong_shape
                  "Classify the intent." ["gemma:2b"%string] in
  json_loads wrong_shape_text = inr wrong_shape_value
  /\ attempt0 "gemma:2b"%string "weather"%string
              "Do I need a jacket in Seattle tonight?"%string
     = Raise ValueError
  /\ run = ([], Some ValueError).
Proof.
  repeat split; vm_compute; reflexivity.
Qed.

(** ** The sample log *)

(** On the tie of the sample log the first model seen, "zeta", is the
    winner of "weather", while the table lists "alpha" first. *)
Example sample_tie_keeps_first_seen :
  exists s,
    summarize sample_results = Ok s
    /\ option_map best_model (od_get (KStr "weather") (per_category s))
       = Some (KStr "zeta")
    /\ option_map best_model (overall_winner s) = Some (KStr "zeta")
    /\ map r_model (model_performance_summary s) = [KStr "alpha"; KStr "zeta"].
Proof.
  eexists. split; [vm_compute; reflexivity|]. repeat split.
Qed.

(** A record with no [intent], [confidence] or [duration]: against the
    category "unknown" the default label counts as correct, and the
    default confidence 0.0 gives the score 1. *)
Example bare_record_uses_defaults :
  process_record empty_agg
    (VDict [(KStr "model", VStr "m"); (KStr "category", VStr "unknown")])
  = Ok ([(KStr "unknown",
          [(KStr "m", mk_stats [Fin ((0 - inject_Z 1) ^ 2)] 1 1 [VNum (Fin 0)])])],
        [(KStr "m", mk_stats [Fin ((0 - inject_Z 1) ^ 2)] 1 1 [VNum (Fin 0)])]).
Proof. reflexivity. Qed.



(** The four records of the sample log are counted once each. *)
Lemma C3_witness :
  normalized sample_results sample_recs
  /\ aggregate sample_results
     = Ok (category_form sample_recs, overall_form sample_recs)
  /\ total_attempts (overall_form sample_recs) = 4%Z
  /\ total_attempts_by_category (category_form sample_recs) = 4%Z.
Proof.
  split; [reflexivity|].
  destruct (@C3_groups_and_table sample_results sample_recs eq_refl)
    as (Ha & Ht & Hc & _).
  repeat split; assumption.
Defined.


(** The summary of the sample log, written and read back. *)
Lemma C8_witness :
  load_lines sample_loads sample_lines = inr sample_results
  /\ normalized sample_results sample_recs
  /\ sample_results <> []
  /\ exists (s : summary) (doc : json),
       summarize sample_results = Ok s
       /\ written_json (fst (analyze_log_file sample_loads repr_sample
                               tabulate_sample false "runs/results.jsonl"
                               (Some sample_lines)))
          = [("analysis_for_results/summary.json"%string, doc)]
       /\ json_decode doc = summary_value s.
Proof.
  assert (Hl : load_lines sample_loads sample_lines = inr sample_results)
    by (vm_compute; reflexivity).
  assert (Hn : normalized sample_results sample_recs) by reflexivity.
  assert (Hne : sample_results <> []) by discriminate.
  split; [exact Hl|]. split; [exact Hn|]. split; [exact Hne|].
  destruct (@C8_summary_round_trip sample_loads repr_sample tabulate_sample
              false "runs/results.jsonl" sample_lines sample_results
              sample_recs Hl Hn Hne)
    as (s & doc & Hs & Hw & _ & Hd & _).
  exists s, doc. repeat split; assumption.
Defined.

(** With a service that times out, the first query of a list leaves no
    record and the loop goes on with the second. *)
Lemma failed_call_witness :
  always_times_out "gemma:2b" ("Classify." ++ nl ++ "User: " ++ "What's 2+2?")
  = inl "Read timed out. (read timeout=60)"%string
  /\ attempt sample_loads float_of_sample strip_sample always_times_out
             "Classify." "gemma:2b" "math" "What's 2+2?"
     = Ok None
  /\ query_loop sample_loads float_of_sample strip_sample always_times_out
                "Classify." "gemma:2b" "math"
                ["What's 2+2?"; "Multiply 23 by 7."]%string []
     = query_loop sample_loads float_of_sample strip_sample always_times_out
                  "Classify." "gemma:2b" "math" ["Multiply 23 by 7."%string] [].
Proof.
  split; [reflexivity|].
  destruct (@failed_call_is_skipped sample_loads float_of_sample strip_sample
              always_times_out "Classify." "gemma:2b" "math" "What's 2+2?"
              "Read timed out. (read timeout=60)" eq_refl) as [Ha Hl].
  split; [exact Ha|apply Hl].
Defined.

(** With a model that answers "not json", the attempt is recorded with
    the label "error" and confidence 0.0. *)
Lemma undecodable_response_witness :
  answers_with "not json" "gemma:2b"
               ("Classify." ++ nl ++ "User: " ++ "What's 2+2?")
  = inr (VDict [(KStr "model", VStr "gemma:2b");
                (KStr "response", VStr "not json");
                (KStr "done", VBool true)], Fin 1.5)
  /\ sample_loads (strip_sample "not json") = inl expecting_value
  /\ attempt sample_loads float_of_sample strip_sample
             (answers_with "not json") "Classify." "gemma:2b" "math"
             "What's 2+2?"
     = Ok (Some (VDict [(KStr "model", VStr "gemma:2b");
                        (KStr "category", VStr "math");
                        (KStr "query", VStr "What's 2+2?");
                        (KStr "intent", VStr "error");
                        (KStr "confidence", VNum (Fin 0));
                        (KStr "duration", VNum (py_round (Fin 1.5) 2))])).
Proof.
  split; [reflexivity|]. split; [reflexivity|].
  exact (proj1 (@undecodable_response_is_recorded sample_loads float_of_sample
                  strip_sample (answers_with "not json") "Classify."
                  "gemma:2b" "math" "What's 2+2?" "not json" expecting_value
                  _ _ eq_refl eq_refl eq_refl)).
Defined.

(** ** The log of a benchmark run *)

Section PlanFacts.
Variable json_loads : string -> string + pyval.
Variable float_of_str : string -> option num.
Variable str_strip : string -> string.
Variable post_generate : string -> string -> string + (pyval * num).
Variable system_prompt : string.

Local Abbreviation run_ :=
  (run_attempts json_loads float_of_str str_strip post_generate system_prompt).
Local Abbreviation completed_ :=
  (completed json_loads float_of_str str_strip post_generate system_prompt).
Local Abbreviation first_raise_ :=
  (first_raise json_loads float_of_str str_strip post_generate system_prompt).
Local Abbreviation emitted_ :=
  (emitted json_loads float_of_str str_strip post_generate system_prompt).
Local Abbreviation attempt_at_ :=
  (attempt_at json_loads float_of_str str_strip post_generate system_prompt).

Lemma completed_app (l1 l2 : list (string * string * string)) :
  completed_ (l1 ++ l2) =
  completed_ l1 ++ match first_raise_ l1 with
                   | None => completed_ l2
                   | Some _ => []
                   end.
Proof.
  induction l1 as [|t l1 IH]; cbn [app completed first_raise]; [reflexivity|].
  destruct (attempt_at_ t); [|reflexivity]. cbn [app]. now rewrite IH.
Qed.

Lemma first_raise_app (l1 l2 : list (string * string * string)) :
  first_raise_ (l1 ++ l2) =
  match first_raise_ l1 with
  | None => first_raise_ l2
  | Some e => Some e
  end.
Proof.
  induction l1 as [|t l1 IH]; cbn [app first_raise]; [reflexivity|].
  now destruct (attempt_at_ t).
Qed.

Lemma run_attempts_app (l1 l2 : list (string * string * string))
  (log : list pyval) :
  run_ (l1 ++ l2) log =
  match run_ l1 log with
  | (log', None) => run_ l2 log'
  | stopped => stopped
  end.
Proof.
  unfold run_attempts. rewrite completed_app, first_raise_app.
  destruct (first_raise_ l1).
  - now rewrite app_nil_r.
  - now rewrite flat_map_app, app_assoc.
Qed.

Lemma query_loop_run (model category : string) (queries : list string) :
  forall log,
    query_loop json_loads float_of_str str_strip post_generate system_prompt
               model category queries log
    = run_ (map (fun query => (model, category, query)) queries) log.
Proof.
  unfold run_attempts.
  induction queries as [|q queries IH]; intro log;
    cbn [map query_loop completed first_raise flat_map].
  - now rewrite app_nil_r.
  - assert (E : attempt_at_ (model, category, q)
                = attempt json_loads float_of_str str_strip post_generate
                          system_prompt model category q) by reflexivity.
    rewrite E.
    destruct (attempt json_loads float_of_str str_strip post_generate
                      system_prompt model category q) as [[r|]|e] eqn:Ha.
    + assert (Hem : emitted_ (model, category, q) = [r])
        by (unfold emitted; now rewrite E).
      rewrite IH. cbn [flat_map]. rewrite Hem. now rewrite <- app_assoc.
    + assert (Hem : emitted_ (model, category, q) = [])
        by (unfold emitted; now rewrite E).
      rewrite IH. cbn [flat_map]. rewrite Hem. reflexivity.
    + cbn [flat_map]. now rewrite app_nil_r.
Qed.

Lemma category_loop_run (model : string) (tq : list (string * list string)) :
  forall log,
    category_loop json_loads float_of_str str_strip post_generate
                  system_prompt model tq log
    = run_ (flat_map (fun cq => map (fun query => (model, fst cq, query))
                                    (snd cq)) tq) log.
Proof.
  induction tq as [|[c qs] tq IH]; intro log; cbn [category_loop flat_map fst snd].
  - unfold run_attempts. cbn. now rewrite app_nil_r.
  - rewrite run_attempts_app, query_loop_run.
    destruct (run_ (map (fun query => (model, c, query)) qs) log) as [log' [e|]];
      [reflexivity|apply IH].
Qed.

Lemma model_loop_run (models : list string) (tq : list (string * list string)) :
  forall log,
    model_loop json_loads float_of_str str_strip post_generate
               system_prompt models tq log
    = run_ (planned_attempts models tq) log.
Proof.
  unfold planned_attempts.
  induction models as [|m models IH]; intro log; cbn [model_loop flat_map].
  - unfold run_attempts. cbn. now rewrite app_nil_r.
  - rewrite run_attempts_app, category_loop_run.
    match goal with |- context [run_ ?l log] => destruct (run_ l log) as [log' [e|]] end;
      [reflexivity|apply IH].
Qed.

End PlanFacts.

Section AttemptFacts.
Variable json_loads : string -> string + pyval.
Variable float_of_str : string -> option num.
Variable str_strip : string -> string.
Variable post_generate : string -> string -> string + (pyval * num).
Variable system_prompt : string.

Local Abbreviation attempt_ :=
  (attempt json_loads float_of_str str_strip post_generate system_prompt).
Local Abbreviation attempt_at_ :=
  (attempt_at json_loads float_of_str str_strip post_generate system_prompt).
Local Abbreviation parse_ := (parse_response json_loads float_of_str).

Lemma py_float_raises (v : pyval) (e : exn) :
  py_float float_of_str v = Raise e -> e = ValueError \/ e = TypeError.
Proof.
  destruct v as [| | |s| |]; simpl; try (intros [= <-]; auto); try discriminate.
  destruct (float_of_str s); [discriminate|]. intros [= <-]. auto.
Qed.

Lemma parse_response_raises (text : string) (e : exn) :
  parse_ text = Raise e ->
  e = AttributeError \/ e = ValueError \/ e = TypeError.
Proof.
  unfold parse_response.
  destruct (json_loads text) as [msg|parsed]; [discriminate|].
  destruct parsed as [| | | | |d]; simpl; try (intros [= <-]; auto).
  destruct (od_get (KStr "confidence") d) as [raw|]; [|discriminate].
  destruct raw as [| | |s| |]; simpl; try discriminate;
    try (intros [= <-]; auto).
  destruct (float_of_str s); [discriminate|]. intros [= <-]. auto.
Qed.

Lemma parse_response_ok (text : string) :
  response_ok json_loads float_of_str text ->
  exists ic, parse_ text = Ok ic.
Proof.
  unfold response_ok, parse_response, confidence_ok.
  destruct (json_loads text) as [msg|parsed]; [eexists; reflexivity|].
  destruct parsed as [| | | | |d]; try contradiction. simpl.
  destruct (od_get (KStr "confidence") d) as [raw|]; [|eexists; reflexivity].
  destruct raw as [| | |s| |]; simpl; try contradiction;
    try (eexists; reflexivity).
  destruct (float_of_str s); [eexists; reflexivity|congruence].
Qed.

(** What an attempt can do: skip after a failed call, append a record
    of the six fields of its own model, category and query, or raise
    one of three exceptions. *)
Lemma attempt_cases (model category query : string) :
  match attempt_ model category query with
  | Ok None =>
      exists msg,
        post_generate model (system_prompt ++ nl ++ "User: " ++ query)
        = inl msg
  | Ok (Some r) =>
      exists intent confidence duration,
        r = VDict [(KStr "model", VStr model);
                   (KStr "category", VStr category);
                   (KStr "query", VStr query);
                   (KStr "intent", intent);
                   (KStr "confidence", VNum confidence);
                   (KStr "duration", VNum duration)]
  | Raise e => e = AttributeError \/ e = ValueError \/ e = TypeError
  end.
Proof.
  unfold attempt, run_intent_classification_http.
  destruct (post_generate model (system_prompt ++ nl ++ "User: " ++ query))
    as [msg|[data duration]]; [now exists msg|].
  destruct data as [| | | | |d]; simpl; auto.
  destruct (od_get (KStr "response") d) as [[| | |s| |]|]; simpl; auto.
  - destruct (parse_ (str_strip s)) as [ic|e] eqn:E; simpl.
    + now exists (fst ic), (snd ic), (py_round duration 2).
    + now apply parse_response_raises with (str_strip s).
  - destruct (parse_ (str_strip "")) as [ic|e] eqn:E; simpl.
    + now exists (fst ic), (snd ic), (py_round duration 2).
    + now apply parse_response_raises with (str_strip "").
Qed.

Lemma attempt_ok_of_body (model category query : string) :
  (forall data duration,
      post_generate model (system_prompt ++ nl ++ "User: " ++ query)
      = inr (data, duration) ->
      body_ok json_loads float_of_str str_strip data) ->
  exists o, attempt_ model category query = Ok o.
Proof.
  intro H. unfold attempt, run_intent_classification_http.
  destruct (post_generate model (system_prompt ++ nl ++ "User: " ++ query))
    as [msg|[data duration]]; [eexists; reflexivity|].
  specialize (H data duration eq_refl). unfold body_ok in H.
  destruct data as [| | | | |d]; try contradiction. simpl.
  destruct (od_get (KStr "response") d) as [[| | |s| |]|]; try contradiction;
    simpl; destruct (parse_response_ok _ H) as [ic ->]; simpl;
    eexists; reflexivity.
Qed.

End AttemptFacts.

(** ** Aggregating records of the Producer's shape *)

Lemma od_upd_keys (V : Type) (k : hkey) (dflt : V) (f : V -> V)
  (d : list (hkey * V)) :
  map fst (od_upd k dflt f d) = map fst d
  \/ (map fst (od_upd k dflt f d) = map fst d ++ [k]
      /\ Forall (fun it => key_eqb (fst it) k = false) d).
Proof.
  induction d as [|[k' v] d IH]; cbn [od_upd map fst].
  - right. split; [reflexivity|constructor].
  - destruct (key_eqb k' k) eqn:E; cbn [map fst]; [now left|].
    destruct IH as [->|[-> H]]; [now left|right].
    split; [reflexivity|]. constructor; assumption.
Qed.

Lemma od_upd_values (V : Type) (P : V -> Prop) (k : hkey) (dflt : V)
  (f : V -> V) (d : list (hkey * V)) :
  P (f dflt) -> (forall v, P v -> P (f v)) ->
  Forall (fun it => P (snd it)) d ->
  Forall (fun it => P (snd it)) (od_upd k dflt f d).
Proof.
  intros Hd Hf. induction 1 as [|[k' v] d Hv Hrest IH]; cbn [od_upd].
  - constructor; [exact Hd|constructor].
  - destruct (key_eqb k' k); constructor; cbn in *; auto.
Qed.

Lemma od_upd_str_keys (V : Type) (m : string) (dflt : V) (f : V -> V)
  (d : list (hkey * V)) :
  str_keys d -> str_keys (od_upd (KStr m) dflt f d).
Proof.
  intros [Hk Hnd]. split.
  - clear Hnd. induction Hk as [|[k' v] d Hk' Hrest IH]; cbn [od_upd].
    + constructor; [now exists m|constructor].
    + destruct (key_eqb k' (KStr m)); constructor; auto.
  - destruct (od_upd_keys (KStr m) dflt f d) as [->|[-> Hne]]; [assumption|].
    rewrite <- (rev_involutive (map fst d ++ [KStr m])).
    apply NoDup_rev. rewrite rev_app_distr. cbn. constructor.
    + rewrite <- in_rev. intro Hin. apply in_map_iff in Hin.
      destruct Hin as ([k' v] & E & Hin). cbn in E. subst k'.
      rewrite Forall_forall in Hne. specialize (Hne _ Hin). cbn in Hne.
      rewrite String.eqb_refl in Hne. discriminate.
    + now apply NoDup_rev.
Qed.

Lemma record_attempt_summable (b : num) (ic : Z) (x : num) (s : stats) :
  summable s -> summable (record_attempt b ic (VNum x) s).
Proof.
  unfold summable. cbn. intro H. apply Forall_app. split; [assumption|].
  constructor; [now exists x|constructor].
Qed.

Lemma od_upd_tidy (m : string) (f : stats -> stats) (oms : model_stats) :
  (forall s, summable s -> summable (f s)) ->
  tidy oms -> tidy (od_upd (KStr m) new_stats f oms).
Proof.
  intros Hf [Hk Hs]. split; [now apply od_upd_str_keys|].
  apply (od_upd_values summable); auto. apply Hf. constructor.
Qed.

Lemma process_record_producer (r : pyval) :
  producer_record r ->
  exists (m c : string) (f : stats -> stats),
    (forall s, summable s -> summable (f s))
    /\ forall st,
         process_record st r
         = Ok (od_upd (KStr c) [] (od_upd (KStr m) new_stats f) (fst st),
               od_upd (KStr m) new_stats f (snd st)).
Proof.
  intros (m & c & q & intent & conf & dur & ->).
  exists m, c.
  exists (record_attempt
            (num_sq (num_sub_Z conf (is_correct_of (VStr c) intent)))
            (is_correct_of (VStr c) intent) (VNum dur)).
  split; [intros s Hs; now apply record_attempt_summable|].
  intro st. reflexivity.
Qed.

Lemma aggregate_producer (results : list pyval) :
  Forall producer_record results ->
  forall st : agg,
    Forall (fun it => tidy (snd it)) (fst st) -> tidy (snd st) ->
    exists st',
      foldM process_record results st = Ok st'
      /\ Forall (fun it => tidy (snd it)) (fst st') /\ tidy (snd st').
Proof.
  induction 1 as [|r results Hr _ IH]; intros st Hc Ho.
  - exists st. split; [reflexivity|split; assumption].
  - destruct (process_record_producer Hr) as (m & c & f & Hf & Hp).
    cbn [foldM]. rewrite Hp. cbn [bind]. apply IH; cbn [fst snd].
    + apply (od_upd_values tidy); auto.
      * apply (od_upd_tidy m f (oms := [])); [exact Hf|].
        split; [split|]; constructor.
      * intros v Hv. now apply od_upd_tidy.
    + now apply od_upd_tidy.
Qed.

Lemma accuracy_of_total (s : stats) : exists x, accuracy_of s = Ok x.
Proof.
  pose proof (no_zde_accuracy_of s) as H. unfold accuracy_of, truediv_int in *.
  destruct (total_count s >? 0)%Z; [|eexists; reflexivity].
  destruct (total_count s =? 0)%Z; [now contradiction H|eexists; reflexivity].
Qed.

Lemma py_sum_numeric (l : list pyval) :
  Forall numeric l -> forall acc, exists t,
    foldM (fun acc v => x <- as_num v ;; Ok (num_add acc x)) l acc = Ok t.
Proof.
  induction 1 as [|v l [x ->] _ IH]; intro acc; [now exists acc|].
  cbn. apply IH.
Qed.

Lemma avg_duration_of_total (s : stats) :
  summable s -> exists x, avg_duration_of s = Ok x.
Proof.
  unfold summable, avg_duration_of. intro H.
  destruct (durations s) as [|v l] eqn:E; [eexists; reflexivity|].
  destruct (py_sum_numeric H (Fin 0)) as [t Ht].
  unfold py_sum. rewrite Ht. cbn. eexists; reflexivity.
Qed.

Lemma od_get_values (V : Type) (P : V -> Prop) (k : hkey)
  (d : list (hkey * V)) (v : V) :
  Forall (fun it => P (snd it)) d -> od_get k d = Some v -> P v.
Proof.
  induction 1 as [|[k' v'] d Hv _ IH]; cbn; [discriminate|].
  destruct (key_eqb k' k); [intros [= <-]; exact Hv|exact IH].
Qed.

Lemma winner_entry_total (items : model_stats) :
  Forall (fun it => summable (snd it)) items ->
  exists ow, winner_entry items = Ok ow.
Proof.
  intro Hs. unfold winner_entry.
  destruct (select_winner_selects items) as (best & low & -> & _).
  cbn [bind fst snd]. destruct best as [m|]; [|eexists; reflexivity].
  destruct (key_truthy m); [|eexists; reflexivity].
  set (ws := match od_get m items with Some s => s | None => new_stats end).
  assert (Hws : summable ws).
  { unfold ws. destruct (od_get m items) as [s|] eqn:E.
    - exact (od_get_values summable m Hs E).
    - constructor. }
  destruct (accuracy_of_total ws) as [a ->].
  destruct (avg_duration_of_total Hws) as [d ->].
  cbn. eexists; reflexivity.
Qed.

Lemma foldM_total (A S : Type) (f : S -> A -> result S) (l : list A) :
  Forall (fun a => forall s, exists s', f s a = Ok s') l ->
  forall s, exists s', foldM f l s = Ok s'.
Proof.
  induction 1 as [|a l Ha _ IH]; intro s; [now exists s|].
  cbn. destruct (Ha s) as [s' ->]. cbn. apply IH.
Qed.

Lemma per_category_of_total (cms : category_stats) :
  Forall (fun it => tidy (snd it)) cms ->
  exists pc, per_category_of cms = Ok pc.
Proof.
  intro H. unfold per_category_of. apply foldM_total.
  eapply Forall_impl; [|exact H]. intros [c inner] [_ Hs] acc. cbn [fst snd] in *.
  destruct (winner_entry_total Hs) as [[w|] ->]; cbn; eexists; reflexivity.
Qed.

Lemma insert_sorted_perm (x : hkey * stats) (l l' : model_stats) :
  insert_sorted x l = Ok l' -> Permutation (x :: l) l'.
Proof.
  revert l'. induction l as [|y l IH]; intros l'; cbn [insert_sorted].
  - intros [= <-]. apply Permutation_refl.
  - destruct (item_lt x y) as [[|]|e]; cbn [bind]; try discriminate.
    + intros [= <-]. apply Permutation_refl.
    + destruct (insert_sorted x l) as [r|e]; cbn [bind]; [|discriminate].
      intros [= <-]. apply perm_trans with (y :: x :: l); [apply perm_swap|].
      apply perm_skip. now apply IH.
Qed.

(** [sorted] returns a rearrangement of its argument. *)
Lemma sorted_perm (items items' : model_stats) :
  sorted items = Ok items' -> Permutation items items'.
Proof.
  revert items'. induction items as [|x items IH]; intro items'; cbn [sorted].
  - intros [= <-]. constructor.
  - destruct (sorted items) as [s|e]; cbn [bind]; [|discriminate].
    intro H. apply insert_sorted_perm in H.
    apply perm_trans with (x :: s); [|assumption].
    apply perm_skip. now apply IH.
Qed.

Lemma insert_sorted_total (x : hkey * stats) (l : model_stats) :
  (exists k, fst x = KStr k) ->
  Forall (fun it => exists k, fst it = KStr k) l ->
  ~ In (fst x) (map fst l) ->
  exists l', insert_sorted x l = Ok l'.
Proof.
  intros [kx Hx]. induction 1 as [|y l [ky Hy] Hrest IH]; intro Hn;
    cbn [insert_sorted]; [eexists; reflexivity|].
  unfold item_lt. rewrite Hx, Hy. cbn [key_eqb key_lt].
  destruct (String.eqb kx ky) eqn:E.
  - apply String.eqb_eq in E. exfalso. apply Hn. left. congruence.
  - cbn [bind]. destruct (String.ltb kx ky); [eexists; reflexivity|].
    destruct IH as [r ->]; [|cbn; eexists; reflexivity].
    intro. apply Hn. now right.
Qed.

Lemma sorted_total (items : model_stats) :
  str_keys items -> exists items', sorted items = Ok items'.
Proof.
  intros [Hk Hnd]. induction Hk as [|x items Hx Hrest IH]; cbn [sorted];
    [eexists; reflexivity|].
  cbn in Hnd. inversion Hnd as [|? ? Hn Hnd']; subst.
  destruct (IH Hnd') as [s Hs]. rewrite Hs. cbn [bind].
  pose proof (sorted_perm _ Hs) as Hp.
  apply insert_sorted_total; [assumption| |].
  - apply (Permutation_Forall Hp). assumption.
  - intro Hin. apply Hn.
    apply Permutation_in with (map fst s); [|assumption].
    apply Permutation_map. now symmetry.
Qed.

Lemma table_row_total (item : hkey * stats) :
  summable (snd item) -> exists r, table_row item = Ok r.
Proof.
  intro H. unfold table_row. rewrite avg_brier_of_ok. cbn [bind].
  destruct (avg_duration_of_total H) as [d ->]. cbn [bind].
  destruct (accuracy_of_total (snd item)) as [a ->]. cbn [bind].
  eexists; reflexivity.
Qed.

Lemma mapM_total (A B : Type) (f : A -> result B) (l : list A) :
  Forall (fun a => exists b, f a = Ok b) l -> exists bs, mapM f l = Ok bs.
Proof.
  induction 1 as [|a l [b Hb] _ [bs IH]]; [eexists; reflexivity|].
  cbn. rewrite Hb, IH. cbn. eexists; reflexivity.
Qed.

Lemma table_data_of_total (oms : model_stats) :
  tidy oms -> exists td, table_data_of oms = Ok td.
Proof.
  intros [Hk Hs]. unfold table_data_of.
  destruct (sorted_total Hk) as [items' Hi]. rewrite Hi. cbn [bind].
  apply mapM_total. apply (Permutation_Forall (sorted_perm _ Hi)).
  eapply Forall_impl; [|exact Hs]. intros it. apply table_row_total.
Qed.

(** Steps 1 to 4 end normally on every log of records of the
    Producer's shape. *)
Lemma summarize_producer (results : list pyval) :
  Forall producer_record results -> exists s, summarize results = Ok s.
Proof.
  intro H.
  destruct (aggregate_producer H empty_agg) as (st & Hst & Hc & Ho).
  - constructor.
  - split; [split|]; constructor.
  - unfold summarize, aggregate. rewrite Hst. cbn [bind].
    destruct (per_category_of_total Hc) as [pc ->]. cbn [bind].
    destruct Ho as [Hk Hs].
    destruct (winner_entry_total Hs) as [ow ->]. cbn [bind].
    destruct (table_data_of_total (conj Hk Hs)) as [td ->]. cbn [bind].
    eexists; reflexivity.
Qed.

(** ** What a benchmark run leaves *)

Lemma planned_attempts_length (models : list string) :
  length (planned_attempts models test_queries) = (35 * length models)%nat.
Proof.
  unfold planned_attempts.
  induction models as [|m models IH]; [reflexivity|].
  cbn [flat_map]. rewrite length_app, IH.
  cbn [length]. rewrite Nat.mul_succ_r. rewrite Nat.add_comm. f_equal.
Qed.

Section BenchmarkFacts.
Variable json_loads : string -> string + pyval.
Variable float_of_str : string -> option num.
Variable str_strip : string -> string.
Variable post_generate : string -> string -> string + (pyval * num).
Variable system_prompt : string.

Local Abbreviation completed_ :=
  (completed json_loads float_of_str str_strip post_generate system_prompt).
Local Abbreviation first_raise_ :=
  (first_raise json_loads float_of_str str_strip post_generate system_prompt).
Local Abbreviation emitted_ :=
  (emitted json_loads float_of_str str_strip post_generate system_prompt).
Local Abbreviation attempt_at_ :=
  (attempt_at json_loads float_of_str str_strip post_generate system_prompt).
Local Abbreviation run_benchmark_ :=
  (run_benchmark json_loads float_of_str str_strip post_generate
                 system_prompt).

Lemma emitted_producer_record (t : string * string * string) (r : pyval) :
  In r (emitted_ t) ->
  exists intent confidence duration,
    r = VDict [(KStr "model", VStr (fst (fst t)));
               (KStr "category", VStr (snd (fst t)));
               (KStr "query", VStr (snd t));
               (KStr "intent", intent);
               (KStr "confidence", VNum confidence);
               (KStr "duration", VNum duration)].
Proof.
  unfold emitted, attempt_at.
  pose proof (attempt_cases json_loads float_of_str str_strip post_generate
                system_prompt (fst (fst t)) (snd (fst t)) (snd t)) as H.
  destruct (attempt json_loads float_of_str str_strip post_generate
                    system_prompt (fst (fst t)) (snd (fst t)) (snd t))
    as [[r'|]|e]; cbn; try contradiction.
  intros [<-|[]]. exact H.
Qed.

Lemma emitted_length (t : string * string * string) :
  (length (emitted_ t) <= 1)%nat.
Proof.
  unfold emitted. destruct (attempt_at_ t) as [[r|]|e]; cbn; lia.
Qed.

Lemma completed_length (l : list (string * string * string)) :
  (length (flat_map emitted_ (completed_ l)) <= length l)%nat.
Proof.
  induction l as [|t l IH]; cbn [completed]; [cbn; lia|].
  destruct (attempt_at_ t); cbn [flat_map length]; [|lia].
  rewrite length_app. pose proof (emitted_length t). lia.
Qed.

Lemma completed_all (l : list (string * string * string)) :
  (forall t, In t l -> exists o, attempt_at_ t = Ok o) ->
  completed_ l = l /\ first_raise_ l = None.
Proof.
  induction l as [|t l IH]; intro H; [now split|].
  cbn [completed first_raise].
  destruct (H t (or_introl eq_refl)) as [o ->].
  destruct IH as [-> ->]; [|now split].
  intros t' Ht'. apply H. now right.
Qed.

Lemma first_raise_kinds (l : list (string * string * string)) (e : exn) :
  first_raise_ l = Some e ->
  e = AttributeError \/ e = ValueError \/ e = TypeError.
Proof.
  induction l as [|t l IH]; cbn [first_raise]; [discriminate|].
  unfold attempt_at.
  pose proof (attempt_cases json_loads float_of_str str_strip post_generate
                system_prompt (fst (fst t)) (snd (fst t)) (snd t)) as H.
  destruct (attempt json_loads float_of_str str_strip post_generate
                    system_prompt (fst (fst t)) (snd (fst t)) (snd t))
    as [o|e']; [exact IH|].
  intros [= <-]. exact H.
Qed.

(** The log of step 5 in closed form: in the order of the three loops,
    the record of every attempt made before the first attempt that
    raises, a skipped attempt leaving nothing; the run ends on that
    exception when there is one. *)
Lemma benchmark_log_form (models : list string) :
  run_benchmark_ models
  = (flat_map emitted_ (completed_ (planned_attempts models test_queries)),
     first_raise_ (planned_attempts models test_queries)).
Proof.
  unfold run_benchmark. rewrite model_loop_run. reflexivity.
Qed.




End BenchmarkFacts.

(** ** Rounding *)

(** [round_half_even] in terms of the floor and the fractional part. *)
Lemma round_half_even_cases (q : Q) :
  let f := Qfloor q in
  (2 * (q - inject_Z f) < 1 /\ round_half_even q = f)
  \/ (1 < 2 * (q - inject_Z f) /\ round_half_even q = (f + 1)%Z)
  \/ (2 * (q - inject_Z f) == 1
      /\ round_half_even q = if Z.even f then f else (f + 1)%Z).
Proof.
  destruct q as [n d]. unfold round_half_even, Qfloor. cbn [Qnum Qden].
  set (f := (n / Z.pos d)%Z).
  assert (Hm : (n mod Z.pos d = n - Z.pos d * f)%Z).
  { unfold f. pose proof (Z.div_mod n (Z.pos d)). lia. }
  rewrite Hm.
  destruct (2 * (n - Z.pos d * f) <? Z.pos d)%Z eqn:E1.
  - left. split; [|reflexivity]. apply Z.ltb_lt in E1.
    unfold Qlt, Qminus, Qplus, Qmult, Qopp, inject_Z. cbn [Qnum Qden].
      rewrite ?Pos2Z.inj_mul. lia.
  - apply Z.ltb_ge in E1.
    destruct (Z.pos d <? 2 * (n - Z.pos d * f))%Z eqn:E2.
    + right. left. split; [|reflexivity]. apply Z.ltb_lt in E2.
      unfold Qlt, Qminus, Qplus, Qmult, Qopp, inject_Z. cbn [Qnum Qden].
      rewrite ?Pos2Z.inj_mul. lia.
    + right. right. apply Z.ltb_ge in E2. split; [|reflexivity].
      unfold Qeq, Qminus, Qplus, Qmult, Qopp, inject_Z. cbn [Qnum Qden].
      rewrite ?Pos2Z.inj_mul. lia.
Qed.

Lemma round_half_even_mono (x y : Q) :
  x <= y -> (round_half_even x <= round_half_even y)%Z.
Proof.
  intro Hxy.
  pose proof (Qfloor_resp_le _ _ Hxy) as Hf.
  pose proof (Qfloor_le x) as Hx1. pose proof (Qlt_floor x) as Hx2.
  pose proof (Qfloor_le y) as Hy1. pose proof (Qlt_floor y) as Hy2.
  rewrite inject_Z_plus in Hx2, Hy2.
  change (inject_Z 1) with 1 in Hx2, Hy2.
  destruct (Z.eq_dec (Qfloor x) (Qfloor y)) as [E|N].
  - destruct (round_half_even_cases x) as [[Hx ->]|[[Hx ->]|[Hx ->]]];
      destruct (round_half_even_cases y) as [[Hy ->]|[[Hy ->]|[Hy ->]]];
      rewrite ?E in *; try (destruct (Z.even (Qfloor y))); try lia;
      exfalso; lra.
  - assert (Hlt : (Qfloor x + 1 <= Qfloor y)%Z) by lia.
    destruct (round_half_even_cases x) as [[_ ->]|[[_ ->]|[_ ->]]];
      destruct (round_half_even_cases y) as [[_ ->]|[[_ ->]|[_ ->]]];
      try destruct (Z.even (Qfloor x)); try destruct (Z.even (Qfloor y));
      lia.
Qed.

Lemma round_half_even_proper (x y : Q) :
  x == y -> round_half_even x = round_half_even y.
Proof.
  intro E. apply Z.le_antisymm; apply round_half_even_mono; rewrite E;
    apply Qle_refl.
Qed.

Lemma round_half_even_Z (k : Z) : round_half_even (inject_Z k) = k.
Proof.
  unfold round_half_even, inject_Z. cbn [Qnum Qden].
  rewrite Z.mod_1_r, Z.div_1_r. reflexivity.
Qed.

Lemma pow10_pos (n : nat) : 0 < inject_Z (10 ^ Z.of_nat n).
Proof.
  change 0 with (inject_Z 0). rewrite <- Zlt_Qlt.
  apply Z.pow_pos_nonneg; lia.
Qed.

(** Rounding to a number of places keeps the order. *)
Lemma py_round_mono (x y : num) (n : nat) :
  num_le x y -> num_le (py_round x n) (py_round y n).
Proof.
  destruct x as [a|], y as [b|]; cbn [py_round]; try reflexivity;
    try discriminate.
  rewrite !num_le_fin. intro H.
  pose proof (pow10_pos n) as Hp.
  apply Qmult_le_compat_r; [|apply Qlt_le_weak, Qinv_lt_0_compat; exact Hp].
  rewrite <- Zle_Qle. apply round_half_even_mono.
  apply Qmult_le_compat_r; [exact H|now apply Qlt_le_weak].
Qed.

(** Rounding depends on the value only, not on the fraction that
    represents it. *)
Lemma py_round_proper (a b : Q) (n : nat) :
  a == b -> py_round (Fin a) n = py_round (Fin b) n.
Proof.
  intro E. cbn [py_round]. do 3 f_equal. apply round_half_even_proper.
  now rewrite E.
Qed.

(** Rounding keeps a fraction of the unit interval in it. *)
Lemma py_round_unit (q : Q) (n : nat) :
  0 <= q <= 1 ->
  exists r, py_round (Fin q) n = Fin r /\ 0 <= r <= 1.
Proof.
  intros [H0 H1]. eexists. split; [reflexivity|].
  pose proof (pow10_pos n) as Hp.
  set (p := inject_Z (10 ^ Z.of_nat n)) in *.
  assert (Hlo : (0 <= round_half_even (q * p))%Z).
  { rewrite <- (round_half_even_Z 0). apply round_half_even_mono.
    change (inject_Z 0) with 0. apply Qmult_le_0_compat; [exact H0|].
    now apply Qlt_le_weak. }
  assert (Hhi : (round_half_even (q * p) <= 10 ^ Z.of_nat n)%Z).
  { apply Z.le_trans with (round_half_even p);
      [|unfold p; rewrite round_half_even_Z; apply Z.le_refl].
    apply round_half_even_mono.
    apply Qle_trans with (1 * p); [|rewrite Qmult_1_l; apply Qle_refl].
    apply Qmult_le_compat_r; [exact H1|now apply Qlt_le_weak]. }
  split.
  - apply Qle_shift_div_l; [exact Hp|]. rewrite Qmult_0_l.
    change 0 with (inject_Z 0). now rewrite <- Zle_Qle.
  - apply Qle_shift_div_r; [exact Hp|]. rewrite Qmult_1_l.
    unfold p. now rewrite <- Zle_Qle.
Qed.

(** ** Invariants of the aggregation loop, for every input *)

Lemma is_correct_of_cases (a b : pyval) :
  is_correct_of a b = 0%Z \/ is_correct_of a b = 1%Z.
Proof. unfold is_correct_of. destruct (py_eqb a b); auto. Qed.

(** The shape of every successful step of the loop. *)
Lemma process_record_inv (st st' : agg) (r : pyval) :
  process_record st r = Ok st' ->
  exists (ck mk : hkey) (b : num) (ic : Z) (d : pyval),
    (ic = 0%Z \/ ic = 1%Z)
    /\ st' = (od_upd ck [] (od_upd mk new_stats (record_attempt b ic d))
                     (fst st),
              od_upd mk new_stats (record_attempt b ic d) (snd st)).
Proof.
  unfold process_record.
  destruct (getitem r "model") as [model|]; cbn [bind]; [|discriminate].
  destruct (getitem r "category") as [cat|]; cbn [bind]; [|discriminate].
  destruct (dict_get r "intent" (VStr "unknown")) as [p|]; cbn [bind];
    [|discriminate].
  destruct (dict_get r "confidence" (VNum (Fin 0))) as [c|]; cbn [bind];
    [|discriminate].
  destruct (dict_get r "duration" (VNum (Fin 0))) as [d|]; cbn [bind];
    [|discriminate].
  destruct (brier_score_of c (is_correct_of cat p)) as [b|]; cbn [bind];
    [|discriminate].
  destruct (hash_key cat) as [ck|]; cbn [bind]; [|discriminate].
  destruct (hash_key model) as [mk|]; cbn [bind]; [|discriminate].
  intros [= <-]. exists ck, mk, b, (is_correct_of cat p), d.
  split; [apply is_correct_of_cases|reflexivity].
Qed.

Lemma ForallOrdPairs_snoc (A : Type) (R : A -> A -> Prop) (l : list A) (x : A) :
  ForallOrdPairs R l -> Forall (fun a => R a x) l ->
  ForallOrdPairs R (l ++ [x]).
Proof.
  induction 1 as [|a l Ha _ IH]; intro Hx; cbn.
  - constructor; constructor.
  - inversion Hx; subst. constructor; [|now apply IH].
    apply Forall_app. split; [assumption|]. constructor; [assumption|constructor].
Qed.

Lemma od_upd_distinct (V : Type) (k : hkey) (dflt : V) (f : V -> V)
  (d : list (hkey * V)) :
  distinct_keys d -> distinct_keys (od_upd k dflt f d).
Proof.
  unfold distinct_keys. intro H.
  destruct (od_upd_keys k dflt f d) as [->|[-> Hne]]; [assumption|].
  apply ForallOrdPairs_snoc; [assumption|].
  apply Forall_forall. intros a Ha. apply in_map_iff in Ha.
  destruct Ha as (it & <- & Hit). rewrite Forall_forall in Hne.
  now apply Hne.
Qed.

Lemma od_upd_nonempty (V : Type) (k : hkey) (dflt : V) (f : V -> V)
  (d : list (hkey * V)) : od_upd k dflt f d <> [].
Proof.
  destruct d as [|[k' v] d]; cbn; [discriminate|].
  destruct (key_eqb k' k); discriminate.
Qed.

Lemma record_attempt_counted (b : num) (ic : Z) (d : pyval) :
  ic = 0%Z \/ ic = 1%Z ->
  counted (record_attempt b ic d new_stats)
  /\ forall s, counted s -> counted (record_attempt b ic d s).
Proof.
  intro Hic. unfold counted, record_attempt. cbn. split.
  - repeat split; lia.
  - intros s (H1 & H2 & H3 & H4). rewrite !length_app, H4. cbn.
    repeat split; lia.
Qed.

Lemma process_record_well_grouped (st st' : agg) (r : pyval) :
  process_record st r = Ok st' -> well_grouped st ->
  well_grouped st' /\ snd st' <> [].
Proof.
  intros H (Hc & Hdc & Hdo & Ho).
  destruct (process_record_inv _ _ H) as (ck & mk & b & ic & d & Hic & ->).
  destruct (record_attempt_counted b d Hic) as [Hnew Hupd].
  cbn [fst snd]. split; [|apply od_upd_nonempty].
  split; [|split; [|split]].
  - apply (od_upd_values
             (fun inner : model_stats =>
                distinct_keys inner
                /\ Forall (fun g => counted (snd g)) inner /\ inner <> []));
      [| |exact Hc].
    + cbn [od_upd]. split; [|split].
      * constructor; constructor.
      * constructor; [exact Hnew|constructor].
      * discriminate.
    + intros inner (Hd & Hg & _). split; [|split].
      * now apply od_upd_distinct.
      * now apply (od_upd_values counted).
      * apply od_upd_nonempty.
  - now apply od_upd_distinct.
  - now apply od_upd_distinct.
  - now apply (od_upd_values counted).
Qed.

Lemma empty_agg_well_grouped : well_grouped empty_agg.
Proof. repeat split; constructor. Qed.

Lemma foldM_well_grouped (results : list pyval) :
  forall st st',
    foldM process_record results st = Ok st' -> well_grouped st ->
    well_grouped st' /\ (results <> [] -> snd st' <> []).
Proof.
  induction results as [|r results IH]; intros st st'; cbn [foldM].
  - intros [= <-] H. split; [assumption|congruence].
  - destruct (process_record st r) as [st1|e] eqn:E; cbn [bind];
      [|discriminate].
    intros Hf Hw.
    destruct (process_record_well_grouped _ E Hw) as [Hw1 Hne1].
    destruct (IH _ _ Hf Hw1) as [Hw' Hne']. split; [assumption|].
    intros _. destruct results as [|r' results'].
    + cbn in Hf. injection Hf as <-. assumption.
    + apply Hne'. discriminate.
Qed.

(** After the loop every group of both dictionaries has at least one
    attempt, one score and one duration per attempt and no more correct
    answers than attempts; no dictionary holds a key twice. *)
Lemma aggregate_well_grouped (results : list pyval) (st : agg) :
  aggregate results = Ok st ->
  well_grouped st /\ (results <> [] -> snd st <> []).
Proof.
  intro H. apply (@foldM_well_grouped results empty_agg st H).
  apply empty_agg_well_grouped.
Qed.

(** ** The table accounts for every record *)

Lemma summarize_inv (results : list pyval) (s : summary) :
  summarize results = Ok s ->
  exists st pc ow td,
    aggregate results = Ok st
    /\ per_category_of (fst st) = Ok pc
    /\ winner_entry (snd st) = Ok ow
    /\ table_data_of (snd st) = Ok td
    /\ s = mk_summary pc ow td.
Proof.
  unfold summarize.
  destruct (aggregate results) as [st|e]; cbn [bind]; [|discriminate].
  destruct (per_category_of (fst st)) as [pc|e] eqn:E1; cbn [bind];
    [|discriminate].
  destruct (winner_entry (snd st)) as [ow|e] eqn:E2; cbn [bind];
    [|discriminate].
  destruct (table_data_of (snd st)) as [td|e] eqn:E3; cbn [bind];
    [|discriminate].
  intros [= <-]. exists st, pc, ow, td. repeat split; assumption.
Qed.

Lemma table_data_of_inv (oms : model_stats) (td : list row) :
  table_data_of oms = Ok td ->
  exists items, sorted oms = Ok items /\ mapM table_row items = Ok td.
Proof.
  unfold table_data_of.
  destruct (sorted oms) as [items|e]; cbn [bind]; [|discriminate].
  intro H. now exists items.
Qed.

Lemma mapM_Forall2 (A B : Type) (f : A -> result B) (l : list A) :
  forall bs, mapM f l = Ok bs -> Forall2 (fun a b => f a = Ok b) l bs.
Proof.
  induction l as [|a l IH]; intro bs; cbn [mapM].
  - intros [= <-]. constructor.
  - destruct (f a) as [b|e] eqn:E; cbn [bind]; [|discriminate].
    destruct (mapM f l) as [bs'|e]; cbn [bind]; [|discriminate].
    intros [= <-]. constructor; [exact E|now apply IH].
Qed.

Lemma foldM_total_attempts (results : list pyval) :
  forall st st',
    foldM process_record results st = Ok st' ->
    total_attempts (snd st')
    = (total_attempts (snd st) + Z.of_nat (length results))%Z.
Proof.
  induction results as [|r results IH]; intros st st'; cbn [foldM].
  - intros [= <-]. cbn. lia.
  - destruct (process_record st r) as [st1|e] eqn:E; cbn [bind];
      [|discriminate].
    intro H. rewrite (IH _ _ H).
    destruct (process_record_inv _ _ E) as (ck & mk & b & ic & d & _ & ->).
    cbn [snd]. rewrite total_attempts_upd by reflexivity. cbn [length]. lia.
Qed.

Lemma total_attempts_perm (l l' : model_stats) :
  Permutation l l' -> total_attempts l = total_attempts l'.
Proof.
  unfold total_attempts.
  induction 1; cbn [map]; rewrite ?Zsum_cons; lia.
Qed.

Lemma accuracy_of_unit (s : stats) (acc : num) :
  (0 <= correct_count s <= total_count s)%Z ->
  accuracy_of s = Ok acc -> exists q, acc = Fin q /\ 0 <= q <= 1.
Proof.
  intros Hc. unfold accuracy_of, truediv_int.
  destruct (Z.gtb_spec (total_count s) 0) as [Hpos|Hle].
  - destruct (Z.eqb_spec (total_count s) 0) as [E|_]; [lia|].
    intros [= <-]. eexists. split; [reflexivity|].
    assert (Ht : 0 < inject_Z (total_count s))
      by (change 0 with (inject_Z 0); rewrite <- Zlt_Qlt; lia).
    split.
    + apply Qle_shift_div_l; [exact Ht|]. rewrite Qmult_0_l.
      change 0 with (inject_Z 0). rewrite <- Zle_Qle. lia.
    + apply Qle_shift_div_r; [exact Ht|]. rewrite Qmult_1_l.
      rewrite <- Zle_Qle. lia.
  - intros [= <-]. exists 0. split; [reflexivity|]. split; discriminate.
Qed.

Lemma table_row_sound (item : hkey * stats) (r : row) :
  counted (snd item) -> table_row item = Ok r ->
  row_sound r
  /\ (correct_predictions r + incorrect_predictions r)%Z
     = total_count (snd item)
  /\ r_model r = fst item.
Proof.
  intros (Hc & Ht & _) H. unfold table_row in H.
  destruct (avg_brier_of (snd item)) as [ab|e]; cbn [bind] in H;
    [|discriminate].
  destruct (avg_duration_of (snd item)) as [ad|e]; cbn [bind] in H;
    [|discriminate].
  destruct (accuracy_of (snd item)) as [acc|e] eqn:Ea; cbn [bind] in H;
    [|discriminate].
  injection H as <-. cbn. split; [|split; [lia|reflexivity]].
  unfold row_sound. cbn. repeat split; try lia.
  destruct (accuracy_of_unit _ Hc Ea) as (q & -> & Hq).
  now apply py_round_unit.
Qed.

Lemma table_rows_sound (items : model_stats) (td : list row) :
  Forall (fun g => counted (snd g)) items ->
  Forall2 (fun a b => table_row a = Ok b) items td ->
  Forall row_sound td /\ table_attempts td = total_attempts items
  /\ map r_model td = map fst items.
Proof.
  intros Hc H. induction H as [|a b items td Hab _ IH].
  - repeat split. constructor.
  - inversion Hc as [|? ? Ha Hrest]; subst.
    destruct (table_row_sound _ Ha Hab) as (Hs & Hn & Hm).
    destruct (IH Hrest) as (IH1 & IH2 & IH3).
    split; [now constructor|]. split.
    + unfold table_attempts, total_attempts in *. cbn [map].
      rewrite !Zsum_cons. lia.
    + cbn [map]. now rewrite Hm, IH3.
Qed.

(** ** The winner and its row *)

Lemma key_eqb_refl (k : hkey) : key_eqb k k = true.
Proof.
  destruct k as [|b|[q|]|s]; cbn; try reflexivity.
  - destruct b; reflexivity.
  - apply Qeq_bool_iff. reflexivity.
  - apply String.eqb_refl.
Qed.

Lemma ForallOrdPairs_app_head (A : Type) (R : A -> A -> Prop)
  (l1 l2 : list A) (x : A) :
  ForallOrdPairs R (l1 ++ x :: l2) -> Forall (fun a => R a x) l1.
Proof.
  induction l1 as [|a l1 IH]; cbn; intro H; [constructor|].
  inversion H as [|? ? Ha Hrest]; subst. constructor; [|now apply IH].
  rewrite Forall_forall in Ha. apply Ha. apply in_or_app. right. now left.
Qed.

Lemma od_get_distinct (V : Type) (pre post : list (hkey * V)) (m : hkey)
  (v : V) :
  distinct_keys (pre ++ (m, v) :: post) ->
  od_get m (pre ++ (m, v) :: post) = Some v.
Proof.
  unfold distinct_keys. rewrite map_app. cbn [map fst]. intro H.
  apply ForallOrdPairs_app_head in H.
  induction pre as [|[k' v'] pre IH]; cbn [app od_get].
  - now rewrite key_eqb_refl.
  - cbn [map fst] in H. inversion H as [|? ? Hk Hrest]; subst.
    rewrite Hk. now apply IH.
Qed.

Lemma num_le_refl (x : num) : num_le x x.
Proof.
  destruct x as [q|]; [|reflexivity]. apply num_le_fin. apply Qle_refl.
Qed.

(** The entry the [if best_model:] block builds, when the dictionary holds
    no key twice: the figures of the selected group, whose average no
    group of the dictionary is below. *)
Lemma winner_entry_inv (items : model_stats) (w : winner) :
  distinct_keys items -> winner_entry items = Ok (Some w) ->
  exists st acc ad,
    In (best_model w, st) items
    /\ accuracy_of st = Ok acc
    /\ avg_duration_of st = Ok ad
    /\ w = mk_winner (best_model w) (py_round (avg_brier st) 4)
                     (py_round acc 4) (py_round ad 2)
    /\ num_lt (avg_brier st) Inf
    /\ key_truthy (best_model w) = true
    /\ Forall (fun it => num_le (avg_brier st) (avg_brier (snd it))) items.
Proof.
  intros Hd. unfold winner_entry.
  destruct (select_winner_selects items) as (best & low & -> & Hsel).
  cbn [bind fst snd]. destruct best as [m|]; [|discriminate].
  destruct (key_truthy m) eqn:Ht; [|discriminate].
  cbn [selects] in Hsel.
  destruct Hsel as (pre & st & post & -> & <- & Hfin & _ & Hpre & Hpost).
  rewrite (od_get_distinct _ _ _ _ Hd).
  destruct (accuracy_of st) as [acc|e] eqn:Ea; cbn [bind]; [|discriminate].
  destruct (avg_duration_of st) as [ad|e] eqn:Ed; cbn [bind];
    [|discriminate].
  intros [= <-]. cbn [best_model]. exists st, acc, ad.
  split; [apply in_or_app; right; now left|].
  do 5 (split; [reflexivity || assumption|]).
  apply Forall_app. split.
  - eapply Forall_impl; [|exact Hpre]. intros it. apply num_lt_le.
  - constructor; [apply num_le_refl|exact Hpost].
Qed.

Lemma table_row_inv (item : hkey * stats) (r : row) :
  table_row item = Ok r ->
  exists acc ad,
    accuracy_of (snd item) = Ok acc
    /\ avg_duration_of (snd item) = Ok ad
    /\ r = mk_row (fst item) (correct_count (snd item))
                  (total_count (snd item) - correct_count (snd item))
                  (py_round acc 4) (py_round (avg_brier (snd item)) 4)
                  (py_round ad 2).
Proof.
  unfold table_row. rewrite avg_brier_of_ok. cbn [bind].
  destruct (avg_duration_of (snd item)) as [ad|e] eqn:Ed; cbn [bind];
    [|discriminate].
  destruct (accuracy_of (snd item)) as [acc|e] eqn:Ea; cbn [bind];
    [|discriminate].
  intros [= <-]. exists acc, ad. repeat split; assumption.
Qed.

Lemma Forall2_In_l (A B : Type) (R : A -> B -> Prop) (l : list A)
  (l' : list B) (a : A) :
  Forall2 R l l' -> In a l -> exists b, In b l' /\ R a b.
Proof.
  induction 1 as [|x y l l' Hxy _ IH]; intros Hin; [destruct Hin|].
  destruct Hin as [->|Hin].
  - exists y. split; [now left|assumption].
  - destruct (IH Hin) as (b & Hb & Hr). exists b. split; [now right|assumption].
Qed.

Lemma Forall2_Forall_r (A B : Type) (R : A -> B -> Prop) (P : A -> Prop)
  (Q : B -> Prop) (l : list A) (l' : list B) :
  (forall a b, R a b -> P a -> Q b) ->
  Forall2 R l l' -> Forall P l -> Forall Q l'.
Proof.
  intros HPQ. induction 1 as [|x y l l' Hxy _ IH]; intro H; [constructor|].
  inversion H; subst. constructor; [now apply (HPQ x)|now apply IH].
Qed.

(** Whatever the records are, a summary that is produced has a table
    whose rows account for every record exactly once: the correct and
    incorrect predictions of all rows add up to the number of records;
    every row has non-negative counts, at least one attempt and an
    accuracy between 0 and 1. *)
Theorem table_accounts_for_every_record (results : list pyval) (s : summary) :
  summarize results = Ok s ->
  table_attempts (model_performance_summary s) = Z.of_nat (length results)
  /\ Forall row_sound (model_performance_summary s).
Proof.
  intro H.
  destruct (summarize_inv _ H) as (st & pc & ow & td & Ha & _ & _ & Ht & ->).
  cbn [model_performance_summary].
  destruct (aggregate_well_grouped _ Ha) as [(_ & _ & _ & Hc) _].
  destruct (table_data_of_inv _ Ht) as (items & Hs & Hm).
  pose proof (sorted_perm _ Hs) as Hp.
  assert (Hc' : Forall (fun g => counted (snd g)) items)
    by (eapply Permutation_Forall; eassumption).
  destruct (table_rows_sound Hc' (mapM_Forall2 _ _ Hm)) as (Hrows & Hn & _).
  split; [|exact Hrows].
  rewrite Hn, <- (total_attempts_perm Hp).
  unfold aggregate in Ha. rewrite (foldM_total_attempts _ _ Ha).
  reflexivity.
Qed.

Lemma table_accounts_witness :
  exists s, summarize sample_results = Ok s
            /\ table_attempts (model_performance_summary s)
               = Z.of_nat (length sample_results)
            /\ Forall row_sound (model_performance_summary s).
Proof.
  eexists. split; [vm_compute; reflexivity|].
  apply table_accounts_for_every_record. vm_compute. reflexivity.
Defined.

(** Whatever the records are, an overall winner that is reported is one of
    the table's rows: its model, calibration score, accuracy and average
    duration are those of that row, its calibration score is finite and no
    row of the table has a lower one. *)
Theorem overall_winner_is_the_best_row (results : list pyval) (s : summary)
  (w : winner) :
  summarize results = Ok s -> overall_winner s = Some w ->
  (exists r, In r (model_performance_summary s)
             /\ r_model r = best_model w
             /\ r_brier_score r = w_brier_score w
             /\ r_accuracy r = w_accuracy w
             /\ r_average_duration r = w_average_duration w)
  /\ (exists q, w_brier_score w = Fin q)
  /\ Forall (fun r => num_le (w_brier_score w) (r_brier_score r))
            (model_performance_summary s).
Proof.
  intros H Hw.
  destruct (summarize_inv _ H) as (st & pc & ow & td & Ha & _ & Ho & Ht & ->).
  cbn [model_performance_summary overall_winner] in *. subst ow.
  destruct (aggregate_well_grouped _ Ha) as [(_ & _ & Hd & _) _].
  destruct (winner_entry_inv Hd Ho)
    as (g & acc & ad & Hin & Hacc & Had & Hwe & Hfin & _ & Hmin).
  destruct (table_data_of_inv _ Ht) as (items & Hs & Hm).
  pose proof (sorted_perm _ Hs) as Hp.
  pose proof (mapM_Forall2 _ _ Hm) as H2.
  split; [|split].
  - destruct (Forall2_In_l (best_model w, g) H2) as (r & Hr & Hrow).
    { eapply Permutation_in; eassumption. }
    destruct (table_row_inv _ Hrow) as (acc' & ad' & Hacc' & Had' & ->).
    cbn [fst snd] in *. rewrite Hacc in Hacc'. rewrite Had in Had'.
    injection Hacc' as <-. injection Had' as <-.
    exists (mk_row (best_model w) (correct_count g)
                   (total_count g - correct_count g) (py_round acc 4)
                   (py_round (avg_brier g) 4) (py_round ad 2)).
    rewrite Hwe. cbn. repeat split; try reflexivity. exact Hr.
  - rewrite Hwe. cbn [w_brier_score].
    apply num_lt_inf in Hfin. destruct Hfin as [q ->].
    eexists. reflexivity.
  - apply (Forall2_Forall_r
             (R := fun a b => table_row a = Ok b)
             (P := fun it : hkey * stats =>
                     num_le (avg_brier g) (avg_brier (snd it)))) with items.
    + intros a b Hab Hle.
      destruct (table_row_inv _ Hab) as (acc' & ad' & _ & _ & ->).
      rewrite Hwe. cbn [r_brier_score w_brier_score].
      now apply py_round_mono.
    + exact H2.
    + eapply Permutation_Forall; eassumption.
Qed.

Lemma overall_winner_witness :
  exists s w,
    summarize sample_results = Ok s /\ overall_winner s = Some w
    /\ (exists r, In r (model_performance_summary s)
                  /\ r_model r = best_model w
                  /\ r_brier_score r = w_brier_score w
                  /\ r_accuracy r = w_accuracy w
                  /\ r_average_duration r = w_average_duration w)
    /\ (exists q, w_brier_score w = Fin q)
    /\ Forall (fun r => num_le (w_brier_score w) (r_brier_score r))
              (model_performance_summary s).
Proof.
  eexists. eexists. split; [vm_compute; reflexivity|].
  split; [vm_compute; reflexivity|].
  apply (@overall_winner_is_the_best_row sample_results);
    vm_compute; reflexivity.
Defined.

(** ** Sample runs of the benchmark *)



(** ** The outputs of a successful analysis *)

Lemma has_slash_app (a b : string) :
  has_slash (a ++ b) = has_slash a || has_slash b.
Proof.
  induction a as [|c a IH]; [reflexivity|].
  cbn [String.append has_slash]. now rewrite IH, orb_assoc.
Qed.

Lemma basename_from_no_slash (p : string) :
  forall acc, has_slash acc = false -> has_slash (basename_from acc p) = false.
Proof.
  induction p as [|c p IH]; intros acc Hacc; cbn [basename_from];
    [exact Hacc|].
  destruct (Ascii.eqb c "/") eqn:E; [now apply IH|].
  apply IH. rewrite has_slash_app, Hacc. cbn [has_slash]. now rewrite E.
Qed.

Lemma remove_from_no_slash (pat s : string) :
  has_slash s = false ->
  forall skip, has_slash (remove_from pat skip s) = false.
Proof.
  induction s as [|c s IH]; intros H skip; [reflexivity|].
  cbn [has_slash] in H. apply orb_false_iff in H. destruct H as [Hc Hs].
  cbn [remove_from]. destruct skip as [|k]; [|now apply IH].
  destruct (String.prefix pat (String c s)); [now apply IH|].
  cbn [has_slash]. rewrite Hc. now apply IH.
Qed.

(** The output directory is a single path component: a directory of the
    current working directory, wherever the log is. *)
Lemma output_dir_no_slash (filepath : string) :
  has_slash (output_dir filepath) = false.
Proof.
  unfold output_dir. rewrite has_slash_app. cbn [orb].
  change (has_slash "analysis_for_") with false. cbn [orb].
  apply remove_from_no_slash. now apply basename_from_no_slash.
Qed.

Lemma basename_from_join (d name : string) :
  forall acc,
    basename_from acc (d ++ "/" ++ name) = basename_from EmptyString name.
Proof.
  induction d as [|c d IH]; intro acc.
  - reflexivity.
  - cbn [String.append basename_from].
    destruct (Ascii.eqb c "/"); apply IH.
Qed.

Lemma table_nonempty (results : list pyval) (s : summary) :
  summarize results = Ok s -> results <> [] ->
  model_performance_summary s <> [].
Proof.
  intros H Hne.
  destruct (summarize_inv _ H) as (st & pc & ow & td & Ha & _ & _ & Ht & ->).
  cbn [model_performance_summary].
  destruct (aggregate_well_grouped _ Ha) as [_ Hst].
  destruct (table_data_of_inv _ Ht) as (items & Hs & Hm).
  pose proof (sorted_perm _ Hs) as Hp.
  pose proof (mapM_Forall2 _ _ Hm) as H2.
  intros ->. inversion H2; subst.
  apply Permutation_sym, Permutation_nil in Hp. now apply Hst.
Qed.

Section Outputs.
Variable json_loads : string -> string + pyval.
Variable num_repr : num -> string.
Variable tabulate : list row -> string.


End Outputs.


(** The directory part of the path of the log has no effect on where the
    outputs go: two logs of the same name in different directories share
    their output directory. *)
Theorem output_dir_ignores_the_log_directory (d p : string) :
  output_dir (d ++ "/" ++ p) = output_dir p.
Proof.
  unfold output_dir, basename. now rewrite basename_from_join.
Qed.

(** ** The exit status of the Aggregator *)

Section ScriptFacts.
Variable json_loads : string -> string + pyval.
Variable num_repr : num -> string.
Variable tabulate : list row -> string.


End ScriptFacts.

(** ** From the benchmark to its analysis *)

Section EndToEnd.
Variable json_loads : string -> string + pyval.
Variable float_of_str : string -> option num.
Variable str_strip : string -> string.
Variable post_generate : string -> string -> string + (pyval * num).
Variable system_prompt : string.
Variable loads : string -> string + pyval.
Variable num_repr : num -> string.
Variable tabulate : list row -> string.


End EndToEnd.


(** ** The records step 1 accepts *)

Lemma process_record_accepts (st : agg) (r : pyval) :
  ((exists st', process_record st r = Ok st') <-> accepted r)
  /\ (forall e, process_record st r = Raise e ->
                e = TypeError \/ e = KeyError "model"
                \/ e = KeyError "category").
Proof.
  unfold process_record, accepted, getitem, dict_get, brier_score_of.
  destruct r as [| | | | |d];
    try (split; [split; [intros [st' H]; discriminate H|intros []]
                |intros e [= <-]; auto]).
  destruct (od_get (KStr "model") d) as [model|]; cbn [bind].
  2: { split; [split; [intros [st' H]; discriminate H|intros []]
              |intros e [= <-]; auto]. }
  destruct (od_get (KStr "category") d) as [category|]; cbn [bind].
  2: { split; [split; [intros [st' H]; discriminate H|intros []]
              |intros e [= <-]; auto]. }
  destruct (od_get (KStr "confidence") d) as [[| | | | |]|]; cbn [bind as_num];
    try (split; [split; [intros [st' H]; discriminate H|intros (_ & _ & [])]
                |intros e [= <-]; auto]);
    (destruct category; cbn [bind hash_key hashable];
     try (split; [split; [intros [st' H]; discriminate H|intros (_ & [] & _)]
                 |intros e [= <-]; auto]);
     destruct model; cbn [bind hash_key hashable];
     try (split; [split; [intros [st' H]; discriminate H|intros ([] & _)]
                 |intros e [= <-]; auto]);
     (split; [split; [intros _; repeat split|intros _; eexists; reflexivity]
             |intros e H; discriminate H])).
Qed.

Lemma foldM_accepts (results : list pyval) :
  forall st,
    ((exists st', foldM process_record results st = Ok st')
     <-> Forall accepted results)
    /\ (forall e, foldM process_record results st = Raise e ->
                  e = TypeError \/ e = KeyError "model"
                  \/ e = KeyError "category").
Proof.
  induction results as [|r results IH]; intro st; cbn [foldM].
  - split; [split; [constructor|intros _; now eexists]|discriminate].
  - destruct (process_record_accepts st r) as [Hiff Herr].
    destruct (process_record st r) as [st1|e1] eqn:E; cbn [bind].
    + destruct (IH st1) as [IHiff IHerr]. split; [|exact IHerr].
      split.
      * intro H. constructor; [apply Hiff; now exists st1|now apply IHiff].
      * intro H. inversion H; subst. now apply IHiff.
    + split; [split|].
      * intros [st' H]. discriminate H.
      * intro H. inversion H as [|? ? Hr _]; subst.
        apply Hiff in Hr. destruct Hr as [st' Hst']. discriminate Hst'.
      * intros e [= <-]. now apply Herr.
Qed.


(** ** Every reported winner *)

Lemma od_set_In (V : Type) (k k' : hkey) (v v' : V) (d : list (hkey * V)) :
  In (k', v') (od_set k v d) -> v' = v \/ In (k', v') d.
Proof.
  induction d as [|[k0 v0] d IH]; cbn [od_set].
  - intros [[= <- <-]|[]]. now left.
  - destruct (key_eqb k0 k).
    + intros [[= <- <-]|H]; [now left|right; now right].
    + intros [H|H]; [right; now left|].
      destruct (IH H) as [->|Hin]; [now left|right; now right].
Qed.

Lemma per_category_fold_inv (cms : category_stats) :
  forall acc pc,
    foldM (fun (acc : list (hkey * winner)) (item : hkey * model_stats) =>
             w <- winner_entry (snd item) ;;
             match w with
             | Some e => Ok (od_set (fst item) e acc)
             | None => Ok acc
             end) cms acc = Ok pc ->
    forall c w, In (c, w) pc ->
      In (c, w) acc
      \/ exists item, In item cms /\ winner_entry (snd item) = Ok (Some w).
Proof.
  induction cms as [|item cms IH]; intros acc pc; cbn [foldM].
  - intros [= <-] c w H. now left.
  - destruct (winner_entry (snd item)) as [[e|]|err] eqn:E; cbn [bind];
      [| |discriminate].
    + intros H c w Hin. destruct (IH _ _ H c w Hin) as [Hacc|(it & Hit & Hw)].
      * apply od_set_In in Hacc. destruct Hacc as [->|Hacc]; [|now left].
        right. exists item. split; [now left|assumption].
      * right. exists it. split; [now right|assumption].
    + intros H c w Hin. destruct (IH _ _ H c w Hin) as [Hacc|(it & Hit & Hw)].
      * now left.
      * right. exists it. split; [now right|assumption].
Qed.

Lemma winner_entry_sound (items : model_stats) (w : winner) :
  distinct_keys items -> Forall (fun g => counted (snd g)) items ->
  winner_entry items = Ok (Some w) -> winner_sound w.
Proof.
  intros Hd Hc H.
  destruct (winner_entry_inv Hd H)
    as (g & acc & ad & Hin & Hacc & _ & Hwe & Hfin & Ht & _).
  rewrite Hwe. unfold winner_sound. cbn.
  split; [exact Ht|]. split.
  - apply num_lt_inf in Hfin. destruct Hfin as [q ->]. eexists. reflexivity.
  - rewrite Forall_forall in Hc. destruct (Hc _ Hin) as (Hcount & _).
    cbn [snd] in Hcount.
    destruct (accuracy_of_unit _ Hcount Hacc) as (q & -> & Hq).
    now apply py_round_unit.
Qed.

(** For every input on which steps 1 to 4 end normally, the overall
    winner and every per-category winner that is reported has a model
    name that is not empty (a truthy key), a finite brier_score and an
    accuracy between 0 and 1. *)
Theorem reported_winners_are_sound (results : list pyval) (s : summary) :
  summarize results = Ok s ->
  (forall w, overall_winner s = Some w -> winner_sound w)
  /\ Forall (fun cw => winner_sound (snd cw)) (per_category s).
Proof.
  intro H.
  destruct (summarize_inv _ H) as (st & pc & ow & td & Ha & Hp & Ho & _ & ->).
  cbn [overall_winner per_category].
  destruct (aggregate_well_grouped _ Ha) as [(Hcat & _ & Hd & Hc) _].
  split.
  - intros w ->. now apply (winner_entry_sound Hd Hc).
  - apply Forall_forall. intros [c w] Hin. cbn [snd].
    destruct (per_category_fold_inv _ _ Hp c w Hin) as [[]|(it & Hit & Hw)].
    rewrite Forall_forall in Hcat. destruct (Hcat _ Hit) as (Hd' & Hc' & _).
    now apply (winner_entry_sound Hd' Hc').
Qed.

Lemma reported_winners_witness :
  exists s, summarize sample_results = Ok s
            /\ (forall w, overall_winner s = Some w -> winner_sound w)
            /\ Forall (fun cw => winner_sound (snd cw)) (per_category s).
Proof.
  eexists. split; [vm_compute; reflexivity|].
  apply (@reported_winners_are_sound sample_results). vm_compute. reflexivity.
Defined.
